(** * realestate_data_app: the Zillow scraper (scraper/zillow_scrape_functions.py)

    A shallow embedding of the Query Builder ([SearchZillow]), of the Listing
    Extractor ([ParseProperties]) and of the two entry points
    ([find_listings], [find_properties]), with the parts of the Python
    run time they rely on: dynamically typed values, exceptions, [dict]
    operations, the [json] module, the one regular expression of the source
    and the hand-over of a coroutine's exception. *)

From Stdlib Require Import List NArith ZArith Bool String Ascii Lia.
Import ListNotations.

Set Implicit Arguments.

(** ** Python values, exceptions and built-in operations *)

Module Py.

(** A Python [str] is a sequence of code points. *)
Definition str := list N.

(** The [str] with the code points of a literal of the source. *)
Definition lit (s : string) : str := map N_of_ascii (list_ascii_of_string s).

Fixpoint str_eqb (a b : str) : bool :=
  match a, b with
  | [], [] => true
  | x :: a', y :: b' => N.eqb x y && str_eqb a' b'
  | _, _ => false
  end.

(** [s.startswith(p)] *)
Fixpoint startswith (p s : str) : bool :=
  match p, s with
  | [], _ => true
  | x :: p', y :: s' => N.eqb x y && startswith p' s'
  | _ :: _, [] => false
  end.

(** [p in s] on two strings: [p] occurs in [s] as a substring. *)
Fixpoint contains (p s : str) : bool :=
  startswith p s ||
  match s with
  | [] => false
  | _ :: s' => contains p s'
  end.

(** The values the program handles: what [json.loads] builds, and [None].
    Numbers are integers: floating point values are outside the embedding.
    A [dict] keeps its entries in insertion order; its keys are strings,
    pairwise different in every dict the program builds. *)
#[local] Unset Elimination Schemes.
Inductive value : Type :=
| VNone
| VBool (b : bool)
| VInt (z : Z)
| VStr (s : str)
| VList (l : list value)
| VDict (d : list (str * value)).
#[local] Set Elimination Schemes.

(** Induction on values, with the induction hypothesis on the items of a
    list and on the values of a dict. *)
Section ValueInduction.

Variable P : value -> Prop.
Hypothesis P_none : P VNone.
Hypothesis P_bool : forall b, P (VBool b).
Hypothesis P_int : forall z, P (VInt z).
Hypothesis P_str : forall s, P (VStr s).
Hypothesis P_list : forall l, Forall P l -> P (VList l).
Hypothesis P_dict : forall d, Forall (fun kv => P (snd kv)) d -> P (VDict d).

Fixpoint value_ind (v : value) : P v :=
  match v with
  | VNone => P_none
  | VBool b => P_bool b
  | VInt z => P_int z
  | VStr s => P_str s
  | VList l =>
      P_list ((fix all (l : list value) : Forall P l :=
                 match l with
                 | [] => Forall_nil P
                 | x :: l' => Forall_cons x (value_ind x) (all l')
                 end) l)
  | VDict d =>
      P_dict ((fix all (d : list (str * value))
                 : Forall (fun kv => P (snd kv)) d :=
                 match d with
                 | [] => Forall_nil _
                 | kv :: d' =>
                     Forall_cons (P := fun kv => P (snd kv)) kv
                       (value_ind (snd kv)) (all d')
                 end) d)
  end.

End ValueInduction.

(** Exception classes raised on the paths embedded here.  [TransportError]
    is whatever the HTTP client raises.  [ExtractionError] and
    [MalformedDataError] are classes of the error taxonomy of the
    specification: the source defines no exception class, and no
    definition below raises either of them.  [Unmodelled] is not a Python
    exception: it is the outcome on an input the embedding does not cover
    (a floating point literal in a JSON document). *)
Inductive exn : Type :=
| IndexError
| KeyError
| TypeError
| AttributeError
| StopIteration
| RuntimeError
| JSONDecodeError
| TransportError
| ExtractionError
| MalformedDataError
| Unmodelled.

(** The outcome of evaluating an expression: a value or a raised exception. *)
Inductive result (A : Type) : Type :=
| Ok (a : A)
| Raise (e : exn).
Arguments Raise {A} e.

Definition bind {A B} (r : result A) (k : A -> result B) : result B :=
  match r with
  | Ok a => k a
  | Raise e => Raise e
  end.

Definition is_ok {A} (r : result A) : bool :=
  match r with Ok _ => true | Raise _ => false end.

(** [dict] operations on the entry list. *)
Fixpoint dict_get (d : list (str * value)) (k : str) : option value :=
  match d with
  | [] => None
  | (k', v) :: d' => if str_eqb k' k then Some v else dict_get d' k
  end.

(** [d[k] = v]: an existing key keeps its place, a new key goes last. *)
Fixpoint dict_set (d : list (str * value)) (k : str) (v : value)
  : list (str * value) :=
  match d with
  | [] => [(k, v)]
  | (k', v') :: d' =>
      if str_eqb k' k then (k', v) :: d' else (k', v') :: dict_set d' k v
  end.

(** [v[k]] for a string [k]: only a [dict] can be subscripted by a string. *)
Definition getitem (v : value) (k : str) : result value :=
  match v with
  | VDict d =>
      match dict_get d k with
      | Some x => Ok x
      | None => Raise KeyError
      end
  | _ => Raise TypeError
  end.

(** [v[k] = x] for a string [k]. *)
Definition setitem (v : value) (k : str) (x : value) : result value :=
  match v with
  | VDict d => Ok (VDict (dict_set d k x))
  | _ => Raise TypeError
  end.

(** Truth value of an object, as [if v:] tests it. *)
Definition truthy (v : value) : bool :=
  match v with
  | VNone => false
  | VBool b => b
  | VInt z => negb (Z.eqb z 0)
  | VStr s => match s with [] => false | _ => true end
  | VList l => match l with [] => false | _ => true end
  | VDict d => match d with [] => false | _ => true end
  end.

(** The items a [for] loop, a comprehension or [list.extend] draws from a
    value: the elements of a list, the keys of a dict, the characters of a
    string; the other values are not iterable. *)
Definition iterate (v : value) : result (list value) :=
  match v with
  | VList l => Ok l
  | VDict d => Ok (map (fun kv => VStr (fst kv)) d)
  | VStr s => Ok (map (fun c => VStr [c]) s)
  | _ => Raise TypeError
  end.

(** [v > n] for an integer literal [n]. *)
Definition gt_int (v : value) (n : Z) : result bool :=
  match v with
  | VInt z => Ok (Z.ltb n z)
  | VBool b => Ok (Z.ltb n (if b then 1 else 0))
  | _ => Raise TypeError
  end.

(** [l[0]] on a list. *)
Definition first {A} (l : list A) : result A :=
  match l with
  | x :: _ => Ok x
  | [] => Raise IndexError
  end.

End Py.

Export Py.

Declare Scope py_scope.
Delimit Scope py_scope with py.
Notation "x <- c ;; k" := (bind c (fun x => k))
  (at level 61, c at next level, right associativity) : py_scope.
Notation "' p <- c ;; k" := (bind c (fun x => let p := x in k))
  (at level 61, p pattern, c at next level, right associativity) : py_scope.

(** ** The [json] module of the standard library

    [loads] and [dumps] with their default arguments ([strict] parsing,
    [ensure_ascii] output and the separators [", "] and [": "]), on
    documents without floating point numbers. *)

Module Json.

Local Open Scope N_scope.
Local Open Scope py_scope.

Definition is_ws (c : N) : bool :=
  (c =? 32) || (c =? 9) || (c =? 10) || (c =? 13).

Fixpoint skip_ws (s : str) : str :=
  match s with
  | c :: r => if is_ws c then skip_ws r else s
  | [] => []
  end.

Definition is_digit (c : N) : bool := (48 <=? c) && (c <=? 57).

Definition hexval (c : N) : option N :=
  if is_digit c then Some (c - 48)
  else if (97 <=? c) && (c <=? 102) then Some (c - 87)
  else if (65 <=? c) && (c <=? 70) then Some (c - 55)
  else None.

Definition hex4 (a b c d : N) : option N :=
  match hexval a, hexval b, hexval c, hexval d with
  | Some x, Some y, Some z, Some w => Some (((x * 16 + y) * 16 + z) * 16 + w)
  | _, _, _, _ => None
  end.

Definition is_high (u : N) : bool := (0xD800 <=? u) && (u <=? 0xDBFF).
Definition is_low (u : N) : bool := (0xDC00 <=? u) && (u <=? 0xDFFF).

Definition join_surrogates (hi lo : N) : N :=
  0x10000 + (hi - 0xD800) * 0x400 + (lo - 0xDC00).

(** The character a one-letter escape stands for. *)
Definition unescape (e : N) : option N :=
  if e =? 34 then Some 34
  else if e =? 92 then Some 92
  else if e =? 47 then Some 47
  else if e =? 98 then Some 8
  else if e =? 102 then Some 12
  else if e =? 110 then Some 10
  else if e =? 114 then Some 13
  else if e =? 116 then Some 9
  else None.

(** [scanstring]: the text after an opening quote, up to the closing one.
    An escaped high surrogate followed by an escaped low surrogate is one
    character; a raw control character is refused. *)
Fixpoint scanstring (s : str) : result (str * str) :=
  match s with
  | [] => Raise JSONDecodeError
  | c :: r =>
      if c =? 34 then Ok ([], r)
      else if c =? 92 then
        match r with
        | [] => Raise JSONDecodeError
        | e :: r1 =>
            if e =? 117 then
              match r1 with
              | h1 :: h2 :: h3 :: h4 :: r2 =>
                  match hex4 h1 h2 h3 h4 with
                  | None => Raise JSONDecodeError
                  | Some u =>
                      let single := '(t, rest) <- scanstring r2 ;; Ok (u :: t, rest) in
                      if is_high u then
                        match r2 with
                        | b :: e' :: l1 :: l2 :: l3 :: l4 :: r3 =>
                            if (b =? 92) && (e' =? 117) then
                              match hex4 l1 l2 l3 l4 with
                              | None => Raise JSONDecodeError
                              | Some u2 =>
                                  if is_low u2 then
                                    '(t, rest) <- scanstring r3 ;;
                                    Ok (join_surrogates u u2 :: t, rest)
                                  else single
                              end
                            else single
                        | _ => single
                        end
                      else single
                  end
              | _ => Raise JSONDecodeError
              end
            else
              match unescape e with
              | Some c' => '(t, rest) <- scanstring r1 ;; Ok (c' :: t, rest)
              | None => Raise JSONDecodeError
              end
        end
      else if c <? 32 then Raise JSONDecodeError
      else '(t, rest) <- scanstring r ;; Ok (c :: t, rest)
  end.

(** The digits at the head of [s], read after the value [acc]. *)
Fixpoint scan_digits (s : str) (acc : N) : N * str :=
  match s with
  | c :: r => if is_digit c then scan_digits r (10 * acc + (c - 48)) else (acc, s)
  | [] => (acc, [])
  end.

(** The integer part of a number: an optional minus sign, then either a
    single zero or a non-zero digit and the digits after it. *)
Definition match_int (s : str) : option (Z * str) :=
  let '(neg, s1) :=
    match s with
    | c :: r => if c =? 45 then (true, r) else (false, s)
    | [] => (false, s)
    end in
  match s1 with
  | c :: r =>
      if c =? 48 then Some (0%Z, r)
      else if is_digit c then
        let '(n, r') := scan_digits r (c - 48) in
        Some (if neg then Z.opp (Z.of_N n) else Z.of_N n, r')
      else None
  | [] => None
  end.

(** After an integer part: a fraction (a dot and a digit) or an exponent
    (e or E, an optional sign and a digit) makes the number a float. *)
Definition float_tail (s : str) : bool :=
  match s with
  | c :: d :: r =>
      if c =? 46 then is_digit d
      else if (c =? 101) || (c =? 69) then
        if is_digit d then true
        else if (d =? 43) || (d =? 45) then
          match r with
          | d' :: _ => is_digit d'
          | [] => false
          end
        else false
      else false
  | _ => false
  end.

Definition dict_of_pairs (ps : list (str * value)) : list (str * value) :=
  fold_left (fun d kv => dict_set d (fst kv) (snd kv)) ps [].

(** [scan_once]: one JSON value at the head of [s], and the text after it.
    The first argument bounds the number of nested calls; [loads_str]
    gives more than the document can use, so that the bound is not what
    decides the outcome (lemma [loads_str_bound]). *)
Fixpoint scan_once (n : nat) (s : str) {struct n} : result (value * str) :=
  match n with
  | O => Raise Unmodelled
  | S n' =>
      match s with
      | [] => Raise JSONDecodeError
      | c :: r =>
          if c =? 34 then '(t, rest) <- scanstring r ;; Ok (VStr t, rest)
          else if c =? 123 then
            match skip_ws r with
            | c1 :: r1 =>
                if c1 =? 125 then Ok (VDict [], r1)
                else if c1 =? 34 then
                  '(ps, rest) <- scan_pairs n' r1 ;;
                  Ok (VDict (dict_of_pairs ps), rest)
                else Raise JSONDecodeError
            | [] => Raise JSONDecodeError
            end
          else if c =? 91 then
            match skip_ws r with
            | c1 :: r1 =>
                if c1 =? 93 then Ok (VList [], r1)
                else '(vs, rest) <- scan_items n' (c1 :: r1) ;; Ok (VList vs, rest)
            | [] => Raise JSONDecodeError
            end
          else if startswith (lit "null") s then Ok (VNone, skipn 4 s)
          else if startswith (lit "true") s then Ok (VBool true, skipn 4 s)
          else if startswith (lit "false") s then Ok (VBool false, skipn 5 s)
          else
            match match_int s with
            | Some (z, rest) =>
                if float_tail rest then Raise Unmodelled else Ok (VInt z, rest)
            | None =>
                if startswith (lit "NaN") s || startswith (lit "Infinity") s
                   || startswith (lit "-Infinity") s
                then Raise Unmodelled
                else Raise JSONDecodeError
            end
      end
  end

(** The items of an array after its opening bracket, up to the closing one. *)
with scan_items (n : nat) (s : str) {struct n} : result (list value * str) :=
  match n with
  | O => Raise Unmodelled
  | S n' =>
      '(v, r) <- scan_once n' s ;;
      match skip_ws r with
      | c :: r1 =>
          if c =? 93 then Ok ([v], r1)
          else if c =? 44 then
            '(vs, rest) <- scan_items n' (skip_ws r1) ;; Ok (v :: vs, rest)
          else Raise JSONDecodeError
      | [] => Raise JSONDecodeError
      end
  end

(** The members of an object after the opening quote of a key, up to the
    closing brace. *)
with scan_pairs (n : nat) (s : str) {struct n}
  : result (list (str * value) * str) :=
  match n with
  | O => Raise Unmodelled
  | S n' =>
      '(k, r) <- scanstring s ;;
      match skip_ws r with
      | c :: r1 =>
          if c =? 58 then
            '(v, r2) <- scan_once n' (skip_ws r1) ;;
            match skip_ws r2 with
            | c2 :: r3 =>
                if c2 =? 125 then Ok ([(k, v)], r3)
                else if c2 =? 44 then
                  match skip_ws r3 with
                  | c3 :: r4 =>
                      if c3 =? 34 then
                        '(ps, rest) <- scan_pairs n' r4 ;; Ok ((k, v) :: ps, rest)
                      else Raise JSONDecodeError
                  | [] => Raise JSONDecodeError
                  end
                else Raise JSONDecodeError
            | [] => Raise JSONDecodeError
            end
          else Raise JSONDecodeError
      | [] => Raise JSONDecodeError
      end
  end.

(** [json.loads] on the text of a document. *)
Definition loads_str (s : str) : result value :=
  if startswith [0xFEFF] s then Raise JSONDecodeError
  else
    '(v, r) <- scan_once (S (2 * List.length s)) (skip_ws s) ;;
    match skip_ws r with
    | [] => Ok v
    | _ :: _ => Raise JSONDecodeError
    end.

(** [json.loads(x)]: anything but a string is a [TypeError]. *)
Definition loads (x : value) : result value :=
  match x with
  | VStr s => loads_str s
  | _ => Raise TypeError
  end.

(** *** Serialisation *)

Definition hexdigit (d : N) : N := if d <? 10 then 48 + d else 87 + d.

Definition uescape (n : N) : str :=
  [92; 117; hexdigit (n / 4096 mod 16); hexdigit (n / 256 mod 16);
   hexdigit (n / 16 mod 16); hexdigit (n mod 16)].

Definition escape_char (c : N) : str :=
  if c =? 34 then [92; 34]
  else if c =? 92 then [92; 92]
  else if c =? 10 then [92; 110]
  else if c =? 13 then [92; 114]
  else if c =? 9 then [92; 116]
  else if c =? 8 then [92; 98]
  else if c =? 12 then [92; 102]
  else if (32 <=? c) && (c <=? 126) then [c]
  else if c <? 0x10000 then uescape c
  else
    let n := c - 0x10000 in
    uescape (0xD800 + n / 1024 mod 1024) ++ uescape (0xDC00 + n mod 1024).

Definition encode_string (s : str) : str :=
  34 :: flat_map escape_char s ++ [34].

(** The decimal digits of [n]; [f] bounds the number of digits. *)
Fixpoint digits_of (f : nat) (n : N) : str :=
  match f with
  | O => [48 + n mod 10]
  | S f' =>
      if n <? 10 then [48 + n]
      else digits_of f' (n / 10) ++ [48 + n mod 10]
  end.

Definition encode_nat (n : N) : str := digits_of (N.to_nat (N.size n)) n.

Definition encode_int (z : Z) : str :=
  if (z <? 0)%Z then 45 :: encode_nat (Z.to_N (Z.opp z))
  else encode_nat (Z.to_N z).

(** The parts of a container, separated by a comma and a space. *)
Fixpoint join (parts : list str) : str :=
  match parts with
  | [] => []
  | [p] => p
  | p :: ps => p ++ 44 :: 32 :: join ps
  end.

Fixpoint dumps (v : value) : str :=
  match v with
  | VNone => lit "null"
  | VBool true => lit "true"
  | VBool false => lit "false"
  | VInt z => encode_int z
  | VStr s => encode_string s
  | VList l => 91 :: join (map dumps l) ++ [93]
  | VDict d =>
      123 :: join (map (fun kv => encode_string (fst kv) ++ 58 :: 32 :: dumps (snd kv)) d)
          ++ [125]
  end.

End Json.

(** ** The regular expression of the landing page

    [re.findall] for the pattern of the source: the key queryState in
    double quotes and a colon, a group made of an opening brace, one or more
    characters other than a newline and a closing brace, then a comma,
    white space, a double quote and the word filter. *)

Module Re.

Local Open Scope N_scope.

(** The class of white space characters of a pattern on [str]. *)
Definition is_space (c : N) : bool :=
  ((9 <=? c) && (c <=? 13)) || ((28 <=? c) && (c <=? 32))
  || (c =? 0x85) || (c =? 0xA0) || (c =? 0x1680)
  || ((0x2000 <=? c) && (c <=? 0x200A))
  || (c =? 0x2028) || (c =? 0x2029) || (c =? 0x202F) || (c =? 0x205F)
  || (c =? 0x3000).

Fixpoint skip_space (s : str) : str :=
  match s with
  | c :: r => if is_space c then skip_space r else s
  | [] => []
  end.

Definition strip_prefix (p s : str) : option str :=
  if startswith p s then Some (skipn (List.length p) s) else None.

(** The key that opens a match, and the literal that closes it. *)
Definition marker : str := 34 :: lit "queryState" ++ [34; 58].
Definition closing : str := 34 :: lit "filter".

(** What follows the repetition: the closing brace of the group, a comma,
    white space and [closing].  White space is taken greedily; as [closing] starts with a
    character that is not white space, giving some of it back never helps. *)
Definition match_tail (s : str) : option str :=
  match s with
  | c1 :: c2 :: r =>
      if (c1 =? 125) && (c2 =? 44) then strip_prefix closing (skip_space r)
      else None
  | _ => None
  end.

(** The number of characters the dot can take at the head of [s]. *)
Fixpoint dot_run (s : str) : nat :=
  match s with
  | c :: r => if c =? 10 then O else S (dot_run r)
  | [] => O
  end.

(** The greedy repetition: the longest of the first [k], [k - 1], ..., 1
    characters of [s] after which the rest of the pattern matches. *)
Fixpoint backtrack (k : nat) (s : str) : option (str * str) :=
  match k with
  | O => None
  | S k' =>
      match match_tail (skipn k s) with
      | Some rest => Some (firstn k s, rest)
      | None => backtrack k' s
      end
  end.

(** A match at the head of [s]: the group and the text after the match. *)
Definition match_here (s : str) : option (str * str) :=
  match strip_prefix marker s with
  | Some (c :: r) =>
      if c =? 123 then
        match backtrack (dot_run r) r with
        | Some (g, rest) => Some (123 :: g ++ [125], rest)
        | None => None
        end
      else None
  | _ => None
  end.

(** The groups of the matches found from left to right, without overlap:
    [skip] characters of the last match are still to be passed. *)
Fixpoint findall_from (skip : nat) (s : str) : list str :=
  match s with
  | [] => []
  | _ :: r =>
      match skip with
      | S k => findall_from k r
      | O =>
          match match_here s with
          | Some (g, rest) =>
              g :: findall_from (List.length s - List.length rest - 1) r
          | None => findall_from O r
          end
      end
  end.

Definition findall (s : str) : list str := findall_from O s.

End Re.

(** ** The environment: the HTTP session, the HTML selector, the random
    number generator and the logger *)

Module Env.

(** A request of the session: [session.get(url)], or
    [session.get(url + urlencode(params))]. *)
Inductive request : Type :=
| Get (url : str)
| GetQuery (url : str) (params : value).

(** What the program does not control.  [serve] gives the body of the
    response to a request from the requests sent before it ([None]: the
    client raises); [css_get html q] is [Selector(text=html).css(q).get()];
    [random] is the source of [randint]. *)
Record world : Type := {
  serve : list request -> request -> option str;
  css_get : str -> str -> option str;
  random : nat -> nat
}.

Inductive level : Type := Info | Warning.

(** What a run leaves behind: the requests sent, in order, the number of
    random draws and the levels of the lines logged. *)
Record state : Type := {
  sent : list request;
  draws : nat;
  logged : list level
}.

Definition start : state := {| sent := []; draws := O; logged := [] |}.

(** The state after one more request. *)
Definition after_get (st : state) (r : request) : state :=
  {| sent := sent st ++ [r]; draws := draws st; logged := logged st |}.

Definition M (A : Type) : Type := state -> result A * state.

Definition ret {A} (a : A) : M A := fun st => (Ok a, st).

Definition lift {A} (r : result A) : M A := fun st => (r, st).

Definition bindM {A B} (c : M A) (k : A -> M B) : M B :=
  fun st =>
    match c st with
    | (Ok a, st') => k a st'
    | (Raise e, st') => (Raise e, st')
    end.

Definition session_get (w : world) (r : request) : M str :=
  fun st =>
    match serve w (sent st) r with
    | Some body => (Ok body, after_get st r)
    | None => (Raise TransportError, after_get st r)
    end.

(** [randint(lo, hi)]: an integer between [lo] and [hi], both included. *)
Definition randint (w : world) (lo hi : Z) : M Z :=
  fun st =>
    (Ok (lo + Z.of_nat (random w (draws st)) mod (hi - lo + 1))%Z,
     {| sent := sent st; draws := S (draws st); logged := logged st |}).

Definition log (l : level) : M unit :=
  fun st =>
    (Ok tt, {| sent := sent st; draws := draws st;
               logged := logged st ++ [l] |}).

(** The result of an [async def]: a [StopIteration] that leaves the body of
    a coroutine reaches the caller as a [RuntimeError]. *)
Definition coroutine {A} (body : M A) : M A :=
  fun st =>
    match body st with
    | (Raise StopIteration, st') => (Raise RuntimeError, st')
    | r => r
    end.

(** [asyncio.gather]: the results of the tasks in the order of the tasks.
    Each task here sends its one request when it starts and does not wait
    again, so the tasks run one after the other in the order given. *)
Fixpoint gather {A} (tasks : list (M A)) : M (list A) :=
  match tasks with
  | [] => ret []
  | t :: ts =>
      bindM t (fun a => bindM (gather ts) (fun l => ret (a :: l)))
  end.

(** [css(q).get()] as a value: the text, or [None]. *)
Definition opt_str (o : option str) : value :=
  match o with
  | Some s => VStr s
  | None => VNone
  end.

End Env.

Export Env.

Declare Scope eff_scope.
Delimit Scope eff_scope with eff.
Notation "x <- c ;; k" := (bindM c (fun x => k))
  (at level 61, c at next level, right associativity) : eff_scope.
Notation "c ;; k" := (bindM c (fun _ => k))
  (at level 61, right associativity) : eff_scope.

(** ** class SearchZillow *)

Module SearchZillow.

Local Open Scope eff_scope.

Definition landing_url (query : str) : str :=
  lit "https://www.zillow.com/homes/" ++ query ++ lit "_rb/".

Definition url : str :=
  lit "https://www.zillow.com/search/GetSearchPageState.htm?".

Definition full_query (query_data : value) (category : str) (request_id : Z)
  : value :=
  VDict [ (lit "searchQueryState", query_data);
          (lit "wants", VDict [(category, VList [VStr (lit "mapResults")])]);
          (lit "requestId", VInt request_id) ].

(** [data["categoryTotals"][category]["totalResultCount"]] *)
Definition total_of (data : value) (category : str) : result value :=
  (v <- getitem data (lit "categoryTotals") ;;
   v <- getitem v category ;;
   getitem v (lit "totalResultCount"))%py.

(** [data[category]["searchResults"]["mapResults"]] *)
Definition map_results_of (data : value) (category : str) : result value :=
  (v <- getitem data category ;;
   v <- getitem v (lit "searchResults") ;;
   getitem v (lit "mapResults"))%py.

(** The loop over the categories, from the list [found] so far. *)
Fixpoint scrape_categories (w : world) (query_data : value)
  (categories : list str) (found : list value) : M (list value) :=
  match categories with
  | [] => ret found
  | category :: rest =>
      request_id <- randint w 2 10 ;;
      api_response <-
        session_get w (GetQuery url (full_query query_data category request_id)) ;;
      data <- lift (Json.loads (VStr api_response)) ;;
      _total <- lift (total_of data category) ;;
      over <- lift (gt_int _total 500) ;;
      log (if over then Warning else Info) ;;
      map_results <- lift (map_results_of data category) ;;
      items <- lift (iterate map_results) ;;
      scrape_categories w query_data rest (found ++ items)
  end.

(** The query state the requests carry: the one of the landing page, with
    its [filterState] set to [filters] when [filters] is true. *)
Definition with_filters (query_data filters : value) : result value :=
  if truthy filters then setitem query_data (lit "filterState") filters
  else Ok query_data.

Definition zillow_request (w : world) (query : str) (filters : value)
  (categories : list str) : M (list value) :=
  coroutine (
    html_response <- session_get w (Get (landing_url query)) ;;
    found <- lift (first (Re.findall html_response)) ;;
    query_data <- lift (Json.loads (VStr found)) ;;
    query_data <- lift (with_filters query_data filters) ;;
    scrape_categories w query_data categories []).

Definition default_categories : list str := [lit "cat1"; lit "cat2"].

Definition search_sale (w : world) (query : str) : M (list value) :=
  coroutine (
    log Info ;;
    zillow_request w query VNone default_categories).

Definition flag (b : bool) : value := VDict [(lit "value", VBool b)].

Definition rent_filters : value :=
  VDict [ (lit "isForSaleForeclosure", flag false);
          (lit "isMultiFamily", flag false);
          (lit "isAllHomes", flag true);
          (lit "isAuction", flag false);
          (lit "isNewConstruction", flag false);
          (lit "isForRent", flag true);
          (lit "isLotLand", flag false);
          (lit "isManufactured", flag false);
          (lit "isForSaleByOwner", flag false);
          (lit "isComingSoon", flag false);
          (lit "isForSaleByAgent", flag false) ].

Definition search_rent (w : world) (query : str) : M (list value) :=
  coroutine (
    log Info ;;
    zillow_request w query rent_filters [lit "cat1"]).

End SearchZillow.

(** ** class ParseProperties *)

Module ParseProperties.

Local Open Scope eff_scope.

(** [[photo["url"] for photo in photos]] *)
Fixpoint photo_urls (photos : list value) : result (list value) :=
  match photos with
  | [] => Ok []
  | photo :: rest =>
      (u <- getitem photo (lit "url") ;;
       us <- photo_urls rest ;;
       Ok (u :: us))%py
  end.

Definition parse_property (data : value) : result value :=
  (address <- getitem data (lit "address") ;;
   description <- getitem data (lit "description") ;;
   gallery <- getitem data (lit "galleryPhotos") ;;
   gallery <- iterate gallery ;;
   photos <- photo_urls gallery ;;
   zipcode <- getitem data (lit "zipcode") ;;
   phone <- getitem data (lit "buildingPhoneNumber") ;;
   name <- getitem data (lit "buildingName") ;;
   floor_plans <- getitem data (lit "floorPlans") ;;
   Ok (VDict [ (lit "address", address);
               (lit "description", description);
               (lit "photos", VList photos);
               (lit "zipcode", zipcode);
               (lit "phone", phone);
               (lit "name", name);
               (lit "floor_plans", floor_plans) ]))%py.

Definition next_data_query : str := lit "script#__NEXT_DATA__::text".
Definition apollo_query : str := lit "script#hdpApolloPreloadedData::text".

(** [data["props"]["initialReduxState"]["gdp"]["building"]] *)
Definition building_of (data : value) : result value :=
  (v <- getitem data (lit "props") ;;
   v <- getitem v (lit "initialReduxState") ;;
   v <- getitem v (lit "gdp") ;;
   getitem v (lit "building"))%py.

(** [data.items()] *)
Definition items (data : value) : result (list (str * value)) :=
  match data with
  | VDict d => Ok d
  | _ => Raise AttributeError
  end.

(** [next(v['property'] for k, v in entries if 'ForSale' in k)] *)
Fixpoint next_for_sale (entries : list (str * value)) : result value :=
  match entries with
  | [] => Raise StopIteration
  | (k, v) :: rest =>
      if contains (lit "ForSale") k then getitem v (lit "property")
      else next_for_sale rest
  end.

(** The body of the inner function [scrape], from the text of the page. *)
Definition extract (w : world) (html : str) : result value :=
  let data := opt_str (css_get w html next_data_query) in
  if truthy data then
    (data <- Json.loads data ;;
     building <- building_of data ;;
     parse_property building)%py
  else
    let data := opt_str (css_get w html apollo_query) in
    (outer <- Json.loads data ;;
     cache <- getitem outer (lit "apiCache") ;;
     data <- Json.loads cache ;;
     entries <- items data ;;
     next_for_sale entries)%py.

Definition scrape (w : world) (url : str) : M value :=
  coroutine (
    resp <- session_get w (Get url) ;;
    lift (extract w resp)).

Definition scrape_properties (w : world) (urls : list str) : M (list value) :=
  coroutine (gather (map (scrape w) urls)).

End ParseProperties.

(** ** The entry points

    [con_limit], [timeout] and [headers] configure the session, which is
    part of the [world] here. *)

Definition find_listings (w : world) : M value :=
  (coroutine (
     data <- SearchZillow.search_rent w (lit "Honolulu, HI") ;;
     let data_json := Json.dumps (VList data) in
     lift (Json.loads (VStr data_json))))%eff.

Definition site : str := lit "https://www.zillow.com".

Definition find_properties (w : world) (url : str) : M value :=
  (coroutine (
     data <- ParseProperties.scrape_properties w [site ++ url] ;;
     lift (Json.loads (VList data))))%eff.

(** ** Measures on JSON text

    What the statements about [scan_once] need to speak of: how much of
    its first argument a value uses, and what may follow a value. *)

Module Shape.

Local Open Scope N_scope.

(** The number of nested calls [scan_once] makes on the text of [v]. *)
Fixpoint need (v : value) : nat :=
  match v with
  | VList l => S (list_sum (map (fun x => S (need x)) l))
  | VDict d => S (list_sum (map (fun kv => S (need (snd kv))) d))
  | _ => 1%nat
  end.

(** The text after a number does not go on as a number. *)
Definition ends_number (rest : str) : bool :=
  match rest with
  | [] => true
  | c :: _ =>
      negb (Json.is_digit c || (c =? 46) || (c =? 101) || (c =? 69))
  end.

(** The first character of the text of a value: not white space, not a
    closing bracket, not a byte order mark. *)
Definition starts_value (c : N) : bool :=
  negb (Json.is_ws c) && negb (c =? 93) && negb (c =? 0xFEFF).

(** The text starts with the escape of a low surrogate (or with an escape
    that cannot be read), with which a high surrogate read just before
    would be paired. *)
Definition pairs_with (tail : str) : bool :=
  match tail with
  | b :: e :: l1 :: l2 :: l3 :: l4 :: _ =>
      (b =? 92) && (e =? 117)
      && match Json.hex4 l1 l2 l3 l4 with
         | Some u2 => Json.is_low u2
         | None => true
         end
  | _ => false
  end.

(** A member of an object, without the opening quote of its key. *)
Definition member_tail (kv : str * value) : str :=
  flat_map Json.escape_char (fst kv) ++ 34 :: 58 :: 32 :: Json.dumps (snd kv).

(** The members of an object after the opening quote of the first key. *)
Fixpoint members_tail (d : list (str * value)) : str :=
  match d with
  | [] => []
  | [kv] => member_tail kv
  | kv :: d' => member_tail kv ++ 44 :: 32 :: 34 :: members_tail d'
  end.

(** [scan_once] reads the text of [v] back, whatever follows it that does
    not go on as a number. *)
Definition reads (v : value) : Prop :=
  forall (n : nat) (rest : str),
    (need v <= n)%nat -> ends_number rest = true ->
    Json.scan_once n (Json.dumps v ++ rest) = Ok (v, rest).

End Shape.

(** ** Notions of the specification *)

Module Spec.

Local Open Scope N_scope.

(** A string that [json.dumps] and [json.loads] carry over: its code
    points are in the range of Unicode, and no high surrogate stands right
    before a low surrogate (written out, the two would be read back as one
    character). *)
Fixpoint text (s : str) : bool :=
  match s with
  | [] => true
  | c :: r =>
      (c <? 0x110000)
      && negb (Json.is_high c
               && match r with
                  | c2 :: _ => Json.is_low c2
                  | [] => false
                  end)
      && text r
  end.

Fixpoint mem (k : str) (l : list str) : bool :=
  match l with
  | [] => false
  | k' :: l' => str_eqb k' k || mem k l'
  end.

Fixpoint distinct (l : list str) : bool :=
  match l with
  | [] => true
  | k :: l' => negb (mem k l') && distinct l'
  end.

(** JSON-safe data: [None], booleans, integers, strings of Unicode text,
    lists of JSON-safe values, and dicts from pairwise different strings
    to JSON-safe values. *)
Fixpoint json_safe (v : value) : bool :=
  match v with
  | VStr s => text s
  | VList l => forallb json_safe l
  | VDict d =>
      distinct (map fst d)
      && forallb (fun kv => text (fst kv) && json_safe (snd kv)) d
  | _ => true
  end.


(** The seven fields of a Parsed Property, in the order of the record. *)
Definition parsed_fields : list str :=
  [lit "address"; lit "description"; lit "photos"; lit "zipcode";
   lit "phone"; lit "name"; lit "floor_plans"].

(** The search API request for a category. *)
Definition api_request (qd : value) (c : str) (rid : Z) : request :=
  GetQuery SearchZillow.url (SearchZillow.full_query qd c rid).

(** The search API requests among the requests sent. *)
Definition is_api_request (r : request) : bool :=
  match r with
  | GetQuery u _ => str_eqb u SearchZillow.url
  | Get _ => false
  end.


(** The filter section of the query state a request carries. *)
Definition filter_section (r : request) : result value :=
  match r with
  | GetQuery _ params =>
      (qs <- getitem params (lit "searchQueryState") ;;
       getitem qs (lit "filterState"))%py
  | Get _ => Raise KeyError
  end.

(** The [wants] directive of a request. *)
Definition wants (r : request) : result value :=
  match r with
  | GetQuery _ params => getitem params (lit "wants")
  | Get _ => Raise KeyError
  end.

End Spec.

(** ** Pages and servers used as examples *)

Module Examples.

(** The text of a literal in which the apostrophe stands for the double
    quote and the dollar sign for a newline. *)
Definition js (t : string) : str :=
  map (fun c => if N.eqb c 39 then 34%N else if N.eqb c 36 then 10%N else c)
      (lit t).

Definition honolulu : str := lit "Honolulu, HI".

(** A selector for pages that are nothing but the text of one script:
    the element asked for by [q] holds the whole page, and there is no
    other element. *)
Definition only_script (q : str) (html q' : str) : option str :=
  if str_eqb q' q then Some html else None.

(** A server that answers every request with a challenge page. *)
Definition blocked_page : str := lit "<html><body>Please verify you are a human</body></html>".

Definition blocked_world : world :=
  {| serve := fun _ _ => Some blocked_page;
     css_get := fun _ _ => None;
     random := fun _ => O |}.

(** A listing page in the Apollo layout: the text of the script is a JSON
    object whose [apiCache] field is the JSON text of [cache]. *)
Definition apollo_page (cache : value) : str :=
  Json.dumps (VDict [(lit "apiCache", VStr (Json.dumps cache))]).

Definition apollo_world (cache : value) : world :=
  {| serve := fun _ _ => Some (apollo_page cache);
     css_get := only_script ParseProperties.apollo_query;
     random := fun _ => O |}.

Definition listing_url : str := lit "https://www.zillow.com/homedetails/1/".


(** A cache with two entries that qualify. *)
Definition cache_two_candidates : list (str * value) :=
  [ (lit "ROOT_QUERY", VDict []);
    (lit "VariantQuery{1}ForSale", VDict [(lit "property", VStr (lit "first"))]);
    (lit "ForSaleFullRenderQuery{1}", VDict [(lit "property", VStr (lit "second"))]) ].

(** A cache without any ForSale key. *)
Definition cache_for_rent : list (str * value) :=
  [ (lit "ForRentQuery{1}", VDict [(lit "property", VInt 1)]) ].

(** The query state of a landing page, and the page around it. *)
Definition query_state : value :=
  VDict [ (lit "pagination", VDict []);
          (lit "usersSearchTerm", VStr honolulu);
          (lit "filterState",
             VDict [(lit "sortSelection", VDict [(lit "value", VStr (lit "days"))])]);
          (lit "isListVisible", VBool true) ].

Definition landing_page : str :=
  js "<script>{'searchPageState':{'queryState':"
  ++ Json.dumps query_state
  ++ js ",$ 'filterDefaults':{}}}</script>".

Definition listing (zpid : Z) : value := VDict [(lit "zpid", VInt zpid)].

Definition category_results (c : str) : list value :=
  if str_eqb c (lit "cat1") then [listing 1; listing 2]
  else if str_eqb c (lit "cat2") then [listing 3]
  else [].

(** The answer of the search API: both categories, the second one over
    the limit of 500 results. *)
Definition api_data : value :=
  VDict [ (lit "categoryTotals",
             VDict [ (lit "cat1", VDict [(lit "totalResultCount", VInt 2)]);
                     (lit "cat2", VDict [(lit "totalResultCount", VInt 501)]) ]);
          (lit "cat1", VDict [(lit "searchResults",
             VDict [(lit "mapResults", VList (category_results (lit "cat1")))])]);
          (lit "cat2", VDict [(lit "searchResults",
             VDict [(lit "mapResults", VList (category_results (lit "cat2")))])]) ].

Definition search_world : world :=
  {| serve := fun _ r =>
       match r with
       | Get _ => Some landing_page
       | GetQuery _ _ => Some (Json.dumps api_data)
       end;
     css_get := fun _ _ => None;
     random := fun n => (7 * n + 3)%nat |}.

(** A listing page in the next-data layout, around a building object. *)
Definition next_data_page (building : value) : str :=
  Json.dumps
    (VDict [(lit "props",
       VDict [(lit "initialReduxState",
         VDict [(lit "gdp", VDict [(lit "building", building)])])])]).

Definition next_data_world (building : value) : world :=
  {| serve := fun _ _ => Some (next_data_page building);
     css_get := only_script ParseProperties.next_data_query;
     random := fun _ => O |}.

Definition photo (u : string) : value :=
  VDict [(lit "caption", VNone); (lit "url", VStr (lit u))].

Definition lanai : value :=
  VDict [ (lit "buildingName", VStr (lit "Lanai Tower"));
          (lit "address", VDict [(lit "city", VStr (lit "Honolulu"))]);
          (lit "bdpUrl", VStr (lit "/b/lanai-tower-honolulu-hi/"));
          (lit "description", VStr (lit "Ocean view"));
          (lit "galleryPhotos", VList [photo "https://photos/1.jpg";
                                       photo "https://photos/2.jpg"]);
          (lit "zipcode", VStr (lit "96815"));
          (lit "buildingPhoneNumber", VNone);
          (lit "floorPlans", VList [VDict [(lit "minPrice", VInt 2500)]]);
          (lit "isLowIncome", VBool false) ].

Definition lanai_path : str := lit "/b/lanai-tower-honolulu-hi/".

End Examples.

(** ** Further notions: traces, error classes and more examples *)

Module Further.

(** The search API request for a category and a request id. *)
Definition request_of (qd : value) (cr : str * Z) : request :=
  Spec.api_request qd (fst cr) (snd cr).

(** What [randint(2, 10)] can give. *)
Definition in_range (rid : Z) : Prop := (2 <= rid <= 10)%Z.


(** The exceptions [json.loads] raises on a string ([Unmodelled] is the
    outcome of the embedding on a floating point literal). *)
Definition json_errors : list exn := [JSONDecodeError; Unmodelled].



(** The keys [parse_property] reads from the building object. *)
Definition source_keys : list str :=
  [lit "address"; lit "description"; lit "galleryPhotos"; lit "zipcode";
   lit "buildingPhoneNumber"; lit "buildingName"; lit "floorPlans"].

(** A search API that answers without the totals: the results of cat1
    are there, the categoryTotals are not. *)
Definition api_data_without_totals : value :=
  VDict [ (lit "cat1", VDict [(lit "searchResults",
             VDict [(lit "mapResults", VList [Examples.listing 1])])]) ].

Definition no_totals_world : world :=
  {| serve := fun _ r =>
       match r with
       | Get _ => Some Examples.landing_page
       | GetQuery _ _ => Some (Json.dumps api_data_without_totals)
       end;
     css_get := fun _ _ => None;
     random := fun _ => 5%nat |}.

(** A server whose one page holds the two scripts given. *)
Definition scripts_world (next apollo : option str) : world :=
  {| serve := fun _ _ => Some (lit "<html></html>");
     css_get := fun _ q =>
       if str_eqb q ParseProperties.next_data_query then next
       else if str_eqb q ParseProperties.apollo_query then apollo
       else None;
     random := fun _ => O |}.

(** An Apollo script whose apiCache is an object, not the JSON text of
    one. *)
Definition apollo_page_decoded (cache : value) : str :=
  Json.dumps (VDict [(lit "apiCache", cache)]).

(** The building of the example with more keys, in another order. *)
Definition lanai_reordered : list (str * value) :=
  [ (lit "floorPlans", VList [VDict [(lit "minPrice", VInt 2500)]]);
    (lit "amenities", VList [VStr (lit "pool")]);
    (lit "zipcode", VStr (lit "96815"));
    (lit "galleryPhotos", VList [Examples.photo "https://photos/1.jpg";
                                 Examples.photo "https://photos/2.jpg"]);
    (lit "buildingPhoneNumber", VNone);
    (lit "description", VStr (lit "Ocean view"));
    (lit "address", VDict [(lit "city", VStr (lit "Honolulu"))]);
    (lit "buildingName", VStr (lit "Lanai Tower")) ].

Definition lanai_entries : list (str * value) :=
  match Examples.lanai with
  | VDict d => d
  | _ => []
  end.





(** The record [parse_property] makes of a building ([None] when it makes
    none). *)
Definition record_of (building : value) : value :=
  match ParseProperties.parse_property building with
  | Ok r => r
  | Raise _ => VNone
  end.

End Further.

(** * Properties *)

Unset Implicit Arguments.

(** ** Strings and dicts *)

Lemma str_eqb_eq (a b : str) : str_eqb a b = true <-> a = b.
Proof.
  revert b; induction a as [|x a IH]; intros [|y b]; simpl; split;
    try congruence; try reflexivity.
  - intros H. apply andb_prop in H as [H1 H2].
    apply N.eqb_eq in H1. apply IH in H2. congruence.
  - intros H. injection H as -> ->.
    rewrite N.eqb_refl. simpl. apply IH. reflexivity.
Qed.

Lemma str_eqb_refl (a : str) : str_eqb a a = true.
Proof. apply str_eqb_eq. reflexivity. Qed.

Lemma contains_startswith (p s : str) :
  contains p s = false -> startswith p s = false.
Proof.
  destruct s; simpl; intros H; apply orb_false_elim in H; tauto.
Qed.

Lemma contains_tail (p : str) (c : N) (s : str) :
  contains p (c :: s) = false -> contains p s = false.
Proof.
  intros H. change (contains p (c :: s)) with (startswith p (c :: s) || contains p s) in H.
  apply orb_false_elim in H. tauto.
Qed.

(** ** The regular expression *)

Lemma match_here_marker (s : str) :
  startswith Re.marker s = false -> Re.match_here s = None.
Proof.
  intros H. unfold Re.match_here, Re.strip_prefix. rewrite H. reflexivity.
Qed.

Lemma findall_from_no_marker (s : str) :
  contains Re.marker s = false -> forall k, Re.findall_from k s = [].
Proof.
  induction s as [|c s IH]; intros H k.
  - reflexivity.
  - pose proof (contains_tail _ _ _ H) as Ht.
    pose proof (contains_startswith _ _ H) as Hs.
    destruct k as [|k].
    + change (Re.findall_from O (c :: s)) with
        (match Re.match_here (c :: s) with
         | Some (g, rest) =>
             g :: Re.findall_from (List.length (c :: s) - List.length rest - 1) s
         | None => Re.findall_from O s
         end).
      rewrite (match_here_marker _ Hs). apply IH, Ht.
    + simpl. apply IH, Ht.
Qed.

Lemma findall_no_marker (s : str) :
  contains Re.marker s = false -> Re.findall s = [].
Proof. intros H. apply findall_from_no_marker, H. Qed.

(** ** Coroutines *)

Lemma coroutine_ok {A} (body : M A) (st st' : state) (a : A) :
  body st = (Ok a, st') -> coroutine body st = (Ok a, st').
Proof. unfold coroutine. intros ->. reflexivity. Qed.

Lemma coroutine_raise {A} (body : M A) (st st' : state) (e : exn) :
  body st = (Raise e, st') -> e <> StopIteration ->
  coroutine body st = (Raise e, st').
Proof. unfold coroutine. intros -> H. destruct e; congruence. Qed.

Lemma coroutine_stop {A} (body : M A) (st st' : state) :
  body st = (Raise StopIteration, st') ->
  coroutine body st = (Raise RuntimeError, st').
Proof. unfold coroutine. intros ->. reflexivity. Qed.

Lemma coroutine_not_ok {A} (body : M A) (st : state) :
  is_ok (fst (body st)) = false -> is_ok (fst (coroutine body st)) = false.
Proof.
  unfold coroutine. destruct (body st) as [[a|e] st']; simpl; try congruence.
  destruct e; reflexivity.
Qed.

(** ** The Query Builder *)

Import SearchZillow.

(** C5, as the code has it: when the body of the landing page does not
    contain the key queryState followed by a colon, [zillow_request] fails
    with [IndexError] (the list of matches is empty and its first element
    is asked for), and the landing page is the only request it has sent:
    no search API request is issued. *)
Theorem zillow_request_no_marker (w : world) (query : str) (filters : value)
  (categories : list str) (st : state) (body : str) :
  serve w (sent st) (Get (landing_url query)) = Some body ->
  contains Re.marker body = false ->
  zillow_request w query filters categories st
  = (Raise IndexError, after_get st (Get (landing_url query))).
Proof.
  intros Hserve Hmark. unfold zillow_request.
  apply coroutine_raise; [|discriminate].
  unfold bindM, session_get, lift. rewrite Hserve.
  rewrite (findall_no_marker _ Hmark). reflexivity.
Qed.

Lemma zillow_request_no_marker_witness :
  contains Re.marker Examples.blocked_page = false /\
  zillow_request Examples.blocked_world Examples.honolulu VNone
    default_categories start
  = (Raise IndexError, after_get start (Get (landing_url Examples.honolulu))).
Proof.
  split; [reflexivity|].
  apply (zillow_request_no_marker Examples.blocked_world Examples.honolulu
           VNone default_categories start Examples.blocked_page);
    reflexivity.
Defined.

(** C5 as stated fails: on a landing page without the marker the exception
    is not [ExtractionError]. *)
Lemma zillow_request_no_marker_not_extraction_error :
  contains Re.marker Examples.blocked_page = false /\
  fst (zillow_request Examples.blocked_world Examples.honolulu VNone
         default_categories start) <> Raise ExtractionError.
Proof. split; [reflexivity|]. vm_compute. discriminate. Qed.

(** ** The Listing Extractor *)

Import ParseProperties.

Lemma scrape_extract (w : world) (url : str) (st : state) (html : str) :
  serve w (sent st) (Get url) = Some html ->
  scrape w url st
  = coroutine (lift (extract w html)) (after_get st (Get url)).
Proof.
  intros H. unfold scrape, coroutine, bindM, session_get, lift.
  rewrite H. reflexivity.
Qed.

Lemma extract_apollo (w : world) (html : str) :
  css_get w html next_data_query = None ->
  extract w html
  = (outer <- Json.loads (opt_str (css_get w html apollo_query)) ;;
     cache <- getitem outer (lit "apiCache") ;;
     data <- Json.loads cache ;;
     entries <- items data ;;
     next_for_sale entries)%py.
Proof. intros H. unfold extract. rewrite H. reflexivity. Qed.


Lemma next_for_sale_none (entries : list (str * value)) :
  (forall k v, In (k, v) entries -> contains (lit "ForSale") k = false) ->
  next_for_sale entries = Raise StopIteration.
Proof.
  induction entries as [|[k v] entries IH]; intros H.
  - reflexivity.
  - change (next_for_sale ((k, v) :: entries))
      with (if contains (lit "ForSale") k then getitem v (lit "property")
            else next_for_sale entries).
    rewrite (H k v) by (left; reflexivity).
    apply IH. intros k' v' Hin. apply (H k' v'). right. exact Hin.
Qed.




(** C6, as the code has it: on a page with neither marker, [scrape] fails
    with [TypeError]: the selector gives [None] for the Apollo script, and
    [json.loads] refuses it. *)
Theorem scrape_no_marker (w : world) (url : str) (st : state) (html : str) :
  serve w (sent st) (Get url) = Some html ->
  css_get w html next_data_query = None ->
  css_get w html apollo_query = None ->
  scrape w url st = (Raise TypeError, after_get st (Get url)).
Proof.
  intros Hserve Hnext Hap.
  rewrite (scrape_extract _ _ _ _ Hserve).
  apply coroutine_raise; [|discriminate].
  unfold lift. rewrite (extract_apollo _ _ Hnext), Hap. reflexivity.
Qed.

Lemma scrape_no_marker_witness :
  scrape Examples.blocked_world Examples.listing_url start
  = (Raise TypeError, after_get start (Get Examples.listing_url)).
Proof.
  apply (scrape_no_marker Examples.blocked_world Examples.listing_url start
           Examples.blocked_page); reflexivity.
Defined.

(** C6 as stated fails: on a page with neither marker the exception is not
    [ExtractionError]. *)
Lemma scrape_no_marker_not_extraction_error :
  let w := Examples.blocked_world in
  css_get w Examples.blocked_page next_data_query = None /\
  css_get w Examples.blocked_page apollo_query = None /\
  fst (scrape w Examples.listing_url start) <> Raise ExtractionError.
Proof. repeat split. vm_compute. discriminate. Qed.

(** C10, as the code has it: when no key of the apiCache mapping contains
    ForSale, the generator is exhausted and [next] raises [StopIteration]
    in the body of [scrape]; as [scrape] is a coroutine, the exception
    that reaches its caller is [RuntimeError], which is neither
    [StopIteration] nor [ExtractionError] nor [MalformedDataError]. *)
Theorem scrape_apollo_no_for_sale (w : world) (url : str) (st : state)
  (html text : str) (outer cache : value) (entries : list (str * value)) :
  serve w (sent st) (Get url) = Some html ->
  css_get w html next_data_query = None ->
  css_get w html apollo_query = Some text ->
  Json.loads_str text = Ok outer ->
  getitem outer (lit "apiCache") = Ok cache ->
  Json.loads cache = Ok (VDict entries) ->
  (forall k v, In (k, v) entries -> contains (lit "ForSale") k = false) ->
  extract w html = Raise StopIteration /\
  scrape w url st = (Raise RuntimeError, after_get st (Get url)).
Proof.
  intros Hserve Hnext Hap Hout Hcache Hin Hnone.
  assert (He : extract w html = Raise StopIteration).
  { rewrite (extract_apollo _ _ Hnext), Hap. simpl opt_str.
    unfold Json.loads at 1. rewrite Hout. simpl bind.
    rewrite Hcache. simpl bind. rewrite Hin. simpl bind.
    apply next_for_sale_none, Hnone. }
  split; [exact He|].
  rewrite (scrape_extract _ _ _ _ Hserve). apply coroutine_stop.
  unfold lift. rewrite He. reflexivity.
Qed.

Lemma scrape_apollo_no_for_sale_witness :
  extract (Examples.apollo_world (VDict Examples.cache_for_rent))
    (Examples.apollo_page (VDict Examples.cache_for_rent))
  = Raise StopIteration /\
  scrape (Examples.apollo_world (VDict Examples.cache_for_rent))
    Examples.listing_url start
  = (Raise RuntimeError, after_get start (Get Examples.listing_url)).
Proof.
  apply (scrape_apollo_no_for_sale
           (Examples.apollo_world (VDict Examples.cache_for_rent))
           Examples.listing_url start
           (Examples.apollo_page (VDict Examples.cache_for_rent))
           (Examples.apollo_page (VDict Examples.cache_for_rent))
           (VDict [(lit "apiCache",
                    VStr (Json.dumps (VDict Examples.cache_for_rent)))])
           (VStr (Json.dumps (VDict Examples.cache_for_rent)))
           Examples.cache_for_rent);
    try (vm_compute; reflexivity).
  intros k v [H|[]]. injection H as <- <-. vm_compute. reflexivity.
Defined.

(** C10 as stated fails: on a page whose apiCache mapping has no ForSale
    key, what per-URL extraction fails with is not [StopIteration]. *)
Lemma scrape_apollo_no_for_sale_not_stop_iteration :
  let w := Examples.apollo_world (VDict Examples.cache_for_rent) in
  forallb (fun kv => negb (contains (lit "ForSale") (fst kv)))
    Examples.cache_for_rent = true /\
  fst (scrape w Examples.listing_url start) <> Raise StopIteration.
Proof. split; [reflexivity|]. vm_compute. discriminate. Qed.

(** *** The next-data layout *)



(** Whatever [parse_property] returns has the seven fields and no other. *)
Lemma parse_property_shape (building record : value) :
  parse_property building = Ok record ->
  exists d, record = VDict d /\ map fst d = Spec.parsed_fields.
Proof.
  unfold parse_property, bind. intros H.
  repeat match type of H with
         | context [match ?x with Ok _ => _ | Raise _ => _ end] =>
             destruct x; [|discriminate]
         end.
  injection H as <-. eexists. split; reflexivity.
Qed.



(** *** find_properties *)

Lemma scrape_properties_one (w : world) (u : str) (st st' : state) (r : value) :
  scrape w u st = (Ok r, st') ->
  scrape_properties w [u] st = (Ok [r], st').
Proof.
  intros H. unfold scrape_properties. apply coroutine_ok.
  simpl. unfold bindM, ret. rewrite H. reflexivity.
Qed.

(** C7, what the code does: [find_properties] sends its request to the
    path resolved against the origin of the site, but it never returns a
    record: it hands the list [scrape_properties] returns to [json.loads],
    which raises [TypeError] on anything that is not a string.  Whenever
    the extraction of the page succeeds, the outcome is that
    [TypeError]. *)
Theorem find_properties_never_returns (w : world) (url : str) (st : state) :
  is_ok (fst (find_properties w url st)) = false /\
  forall r st', scrape w (site ++ url) st = (Ok r, st') ->
    find_properties w url st = (Raise TypeError, st').
Proof.
  split.
  - unfold find_properties. apply coroutine_not_ok. unfold bindM.
    destruct (scrape_properties _ _ _) as [[data|e] st'];
      reflexivity.
  - intros r st' H. unfold find_properties.
    apply coroutine_raise; [|discriminate].
    unfold bindM.
    pose proof (scrape_properties_one _ _ _ _ _ H) as E. unfold str in E.
    rewrite E. reflexivity.
Qed.

(** The page of the example parses, and [find_properties] fails on it. *)
Lemma find_properties_type_error :
  let w := Examples.next_data_world Examples.lanai in
  is_ok (fst (scrape w (site ++ Examples.lanai_path) start)) = true /\
  find_properties w Examples.lanai_path start
  = (Raise TypeError, after_get start (Get (site ++ Examples.lanai_path))).
Proof.
  split; [vm_compute; reflexivity|].
  destruct (find_properties_never_returns
              (Examples.next_data_world Examples.lanai)
              Examples.lanai_path start) as [_ H].
  eapply H. vm_compute. reflexivity.
Defined.

(** ** The requests of the Query Builder *)

Lemma dict_get_set (d : list (str * value)) (k : str) (x : value) :
  dict_get (dict_set d k x) k = Some x.
Proof.
  induction d as [|[k' v'] d IH]; simpl.
  - rewrite str_eqb_refl. reflexivity.
  - destruct (str_eqb k' k) eqn:E; simpl; rewrite E; [reflexivity|exact IH].
Qed.

Lemma with_filters_section (query_data filters qd : value) :
  truthy filters = true ->
  with_filters query_data filters = Ok qd ->
  getitem qd (lit "filterState") = Ok filters.
Proof.
  unfold with_filters. intros ->. destruct query_data; try discriminate.
  simpl. intros H. injection H as <-. simpl. rewrite dict_get_set. reflexivity.
Qed.

Lemma api_request_facts (qd : value) (c : str) (rid : Z) :
  Spec.is_api_request (Spec.api_request qd c rid) = true /\
  Spec.wants (Spec.api_request qd c rid)
  = Ok (VDict [(c, VList [VStr (lit "mapResults")])]) /\
  (qs <- getitem (full_query qd c rid) (lit "searchQueryState") ;;
   getitem qs (lit "filterState"))%py = getitem qd (lit "filterState").
Proof. repeat split. Qed.

Lemma bindM_lift {A B} (r : result A) (k : A -> M B) (st : state) :
  bindM (lift r) k st
  = match r with Ok a => k a st | Raise e => (Raise e, st) end.
Proof. destruct r; reflexivity. Qed.

Lemma bindM_log {B} (l : level) (k : unit -> M B) (st : state) :
  bindM (log l) k st
  = k tt {| sent := sent st; draws := draws st; logged := logged st ++ [l] |}.
Proof. reflexivity. Qed.

Ltac step_result :=
  match goal with
  | |- context [match ?r with Ok _ => _ | Raise _ => _ end] =>
      let a := fresh "a" in let e := fresh "e" in destruct r as [a|e]
  end.

(** The loop sends at most one request per category, each of them the
    search API request for one of the categories and the query state. *)
Lemma scrape_categories_sent (w : world) (qd : value) (categories : list str) :
  forall (found : list value) (st : state),
  exists api,
    sent (snd (scrape_categories w qd categories found st)) = sent st ++ api /\
    List.length api <= List.length categories /\
    forall r, In r api ->
      exists c rid, In c categories /\ r = Spec.api_request qd c rid.
Proof.
  induction categories as [|c cs IH]; intros found st.
  - exists []. simpl. rewrite app_nil_r. repeat split; [lia|intros r []].
  - simpl scrape_categories.
    unfold bindM at 1. unfold randint at 1.
    set (rid := (2 + Z.of_nat (random w (draws st)) mod (10 - 2 + 1))%Z).
    set (st1 := {| sent := sent st; draws := S (draws st); logged := logged st |}).
    unfold bindM at 1. unfold session_get at 1.
    assert (Hone : exists api, sent st ++ [Spec.api_request qd c rid] = sent st ++ api /\
              List.length api <= List.length (c :: cs) /\
              forall r, In r api ->
                exists c' rid', In c' (c :: cs) /\ r = Spec.api_request qd c' rid').
    { exists [Spec.api_request qd c rid]. repeat split; [simpl; lia|].
      intros r [<-|[]]. exists c, rid. split; [left|]; reflexivity. }
    destruct (serve w (sent st1) (GetQuery url (full_query qd c rid)))
      as [body|]; [|exact Hone].
    do 3 (rewrite bindM_lift; step_result; [|exact Hone]).
    rewrite bindM_log.
    do 2 (rewrite bindM_lift; step_result; [|exact Hone]).
    match goal with
    | |- context [scrape_categories w qd cs ?f ?s] =>
        destruct (IH f s) as (api & Hsent & Hlen & Hall)
    end.
    exists (Spec.api_request qd c rid :: api). rewrite Hsent. simpl sent.
    unfold after_get. simpl sent. rewrite <- app_assoc. simpl.
    repeat split; [lia|].
    intros r [<-|Hin].
    + exists c, rid. split; [left|]; reflexivity.
    + destruct (Hall r Hin) as (c' & rid' & Hc & ->).
      exists c', rid'. split; [right; exact Hc|reflexivity].
Qed.

Lemma coroutine_state {A} (body : M A) (st : state) :
  snd (coroutine body st) = snd (body st).
Proof.
  unfold coroutine. destruct (body st) as [[a|e] st']; [reflexivity|].
  destruct e; reflexivity.
Qed.

(** The requests of one call: the landing page, then search API requests
    that carry the query state of the landing page after [with_filters]. *)
Lemma zillow_request_sent (w : world) (query : str) (filters : value)
  (categories : list str) (st : state) :
  exists api,
    sent (snd (zillow_request w query filters categories st))
    = sent st ++ Get (landing_url query) :: api /\
    List.length api <= List.length categories /\
    forall r, In r api ->
      exists qd0 qd c rid,
        with_filters qd0 filters = Ok qd /\ In c categories /\
        r = Spec.api_request qd c rid.
Proof.
  unfold zillow_request. rewrite coroutine_state.
  assert (Hnone : forall l : list request,
            sent st ++ [Get (landing_url query)] = l ->
            exists api, l = sent st ++ Get (landing_url query) :: api /\
              List.length api <= List.length categories /\
              forall r, In r api ->
                exists qd0 qd c rid,
                  with_filters qd0 filters = Ok qd /\ In c categories /\
                  r = Spec.api_request qd c rid).
  { intros l <-. exists []. repeat split; [simpl; lia|intros r []]. }
  unfold bindM at 1. unfold session_get at 1.
  destruct (serve w (sent st) (Get (landing_url query))) as [html|];
    [|apply Hnone; reflexivity].
  do 2 (rewrite bindM_lift; step_result; [|apply Hnone; reflexivity]).
  rewrite bindM_lift.
  match goal with
  | |- context [with_filters ?q filters] =>
      destruct (with_filters q filters) as [qd|e] eqn:Hqd;
        [|apply Hnone; reflexivity]
  end.
  destruct (scrape_categories_sent w qd categories []
              (after_get st (Get (landing_url query))))
    as (api & Hsent & Hlen & Hall).
  exists api. rewrite Hsent. simpl sent. rewrite <- app_assoc.
  repeat split; [exact Hlen|].
  intros r Hin. destruct (Hall r Hin) as (c & rid & Hc & ->).
  eexists _, qd, c, rid. repeat split; eassumption.
Qed.

(** C8: [search_rent] is the base search with the fixed filter mapping and
    the single category cat1.  The mapping has exactly eleven keys,
    pairwise different; isAllHomes and isForRent map to a true value and
    the nine others to a false one.  Whatever the server answers, the call
    sends the landing page request and then at most one search API
    request, which wants the mapResults of cat1 only and carries the fixed
    mapping as its filter section. *)
Theorem search_rent_preset (w : world) (query : str) (st : state) :
  search_rent w query
  = coroutine (bindM (log Info)
      (fun _ => zillow_request w query rent_filters [lit "cat1"])) /\
  (exists d,
     rent_filters = VDict d /\ List.length d = 11 /\
     Spec.distinct (map fst d) = true /\
     (forall k, In k [lit "isAllHomes"; lit "isForRent"] ->
        dict_get d k = Some (VDict [(lit "value", VBool true)])) /\
     (forall k, In k [lit "isForSaleForeclosure"; lit "isMultiFamily";
                      lit "isAuction"; lit "isNewConstruction";
                      lit "isLotLand"; lit "isManufactured";
                      lit "isForSaleByOwner"; lit "isForSaleByAgent";
                      lit "isComingSoon"] ->
        dict_get d k = Some (VDict [(lit "value", VBool false)]))) /\
  (exists api,
     sent (snd (search_rent w query st))
     = sent st ++ Get (landing_url query) :: api /\
     List.length api <= 1 /\
     forall r, In r api ->
       Spec.is_api_request r = true /\
       Spec.wants r = Ok (VDict [(lit "cat1", VList [VStr (lit "mapResults")])]) /\
       Spec.filter_section r = Ok rent_filters).
Proof.
  split; [reflexivity|]. split.
  - eexists. split; [reflexivity|]. split; [reflexivity|].
    split; [vm_compute; reflexivity|]. split; intros k Hk; simpl in Hk;
      repeat (destruct Hk as [<-|Hk]; [vm_compute; reflexivity|]);
      destruct Hk.
  - unfold search_rent. rewrite coroutine_state, bindM_log.
    match goal with
    | |- context [zillow_request w query rent_filters ?cs ?s] =>
        destruct (zillow_request_sent w query rent_filters cs s)
          as (api & Hsent & Hlen & Hall)
    end.
    exists api. split; [exact Hsent|]. split; [exact Hlen|].
    intros r Hin. destruct (Hall r Hin) as (qd0 & qd & c & rid & Hqd & Hc & ->).
    destruct Hc as [<-|[]].
    destruct (api_request_facts qd (lit "cat1") rid) as (H1 & H2 & H3).
    split; [exact H1|]. split; [exact H2|].
    unfold Spec.filter_section, Spec.api_request. rewrite H3.
    apply (with_filters_section qd0); [reflexivity|exact Hqd].
Qed.

(** C3, as the code has it: for every filter mapping that is not empty,
    every search API request of the call carries exactly that mapping as
    the filter section of its query state, so a key that the mapping does
    not have is not in the filter section, whatever the query state of
    the landing page held. *)
Theorem zillow_request_replaces_filters (w : world) (query : str)
  (filters : list (str * value)) (categories : list str) (st : state) :
  filters <> [] ->
  exists api,
    sent (snd (zillow_request w query (VDict filters) categories st))
    = sent st ++ Get (landing_url query) :: api /\
    forall r, In r api ->
      Spec.is_api_request r = true /\
      Spec.filter_section r = Ok (VDict filters) /\
      forall k, dict_get filters k = None ->
        (fs <- Spec.filter_section r ;; getitem fs k)%py = Raise KeyError.
Proof.
  intros Hne.
  destruct (zillow_request_sent w query (VDict filters) categories st)
    as (api & Hsent & _ & Hall).
  exists api. split; [exact Hsent|].
  intros r Hin. destruct (Hall r Hin) as (qd0 & qd & c & rid & Hqd & _ & ->).
  destruct (api_request_facts qd c rid) as (H1 & _ & H3).
  assert (Hfs : Spec.filter_section (Spec.api_request qd c rid)
                = Ok (VDict filters)).
  { unfold Spec.filter_section, Spec.api_request. rewrite H3.
    apply (with_filters_section qd0); [|exact Hqd].
    destruct filters; [congruence|reflexivity]. }
  split; [exact H1|]. split; [exact Hfs|].
  intros k Hk. rewrite Hfs. simpl. rewrite Hk. reflexivity.
Qed.

Lemma zillow_request_replaces_filters_witness :
  let filters := [(lit "isForRent", flag true)] in
  exists api,
    sent (snd (zillow_request Examples.search_world Examples.honolulu
                 (VDict filters) default_categories start))
    = [] ++ Get (landing_url Examples.honolulu) :: api /\
    forall r, In r api ->
      Spec.is_api_request r = true /\
      Spec.filter_section r = Ok (VDict filters) /\
      forall k, dict_get filters k = None ->
        (fs <- Spec.filter_section r ;; getitem fs k)%py = Raise KeyError.
Proof.
  apply (zillow_request_replaces_filters Examples.search_world
           Examples.honolulu [(lit "isForRent", flag true)]
           default_categories start).
  discriminate.
Defined.

(** The run of the example does send its two search API requests, and
    their filter section has lost the key of the landing page. *)
Example replaced_filters_run :
  map Spec.filter_section
    (filter Spec.is_api_request
       (sent (snd (zillow_request Examples.search_world Examples.honolulu
                     (VDict [(lit "isForRent", flag true)])
                     default_categories start))))
  = [Ok (VDict [(lit "isForRent", flag true)]);
     Ok (VDict [(lit "isForRent", flag true)])].
Proof. vm_compute. reflexivity. Qed.

(** C3 as stated fails for the empty mapping: it is a mapping the caller
    supplies, yet the requests keep the filter section of the landing
    page. *)
Lemma zillow_request_keeps_filters_on_empty_mapping :
  map Spec.filter_section
    (filter Spec.is_api_request
       (sent (snd (zillow_request Examples.search_world Examples.honolulu
                     (VDict []) [lit "cat1"] start))))
  = [Ok (VDict [(lit "sortSelection", VDict [(lit "value", VStr (lit "days"))])])] /\
  Ok (VDict [(lit "sortSelection", VDict [(lit "value", VStr (lit "days"))])])
  <> Ok (VDict []).
Proof. split; [vm_compute; reflexivity|discriminate]. Qed.

(** ** The result of the Query Builder *)

Lemma match_here_brace (s g rest : str) :
  Re.match_here s = Some (g, rest) -> exists t, g = 123%N :: t.
Proof.
  unfold Re.match_here.
  destruct (Re.strip_prefix Re.marker s) as [[|c r]|]; try discriminate.
  destruct (N.eqb c 123); try discriminate.
  destruct (Re.backtrack (Re.dot_run r) r) as [[g' rest']|]; try discriminate.
  intros H. injection H as <- <-. eexists. reflexivity.
Qed.

Lemma findall_from_brace (s : str) :
  forall k g, In g (Re.findall_from k s) -> exists t, g = 123%N :: t.
Proof.
  induction s as [|c s IH]; intros k g Hin.
  - destruct Hin.
  - destruct k as [|k].
    + change (Re.findall_from O (c :: s)) with
        (match Re.match_here (c :: s) with
         | Some (g, rest) =>
             g :: Re.findall_from (List.length (c :: s) - List.length rest - 1) s
         | None => Re.findall_from O s
         end) in Hin.
      destruct (Re.match_here (c :: s)) as [[g' rest]|] eqn:E.
      * destruct Hin as [<-|Hin]; [exact (match_here_brace _ _ _ E)|].
        exact (IH _ _ Hin).
      * exact (IH _ _ Hin).
    + exact (IH _ _ Hin).
Qed.

(** A document that starts with an opening brace is an object. *)
Lemma loads_str_brace (t : str) (v : value) :
  Json.loads_str (123%N :: t) = Ok v -> exists d, v = VDict d.
Proof.
  unfold Json.loads_str.
  change (startswith [65279%N] (123%N :: t)) with false.
  change (Json.skip_ws (123%N :: t)) with (123%N :: t).
  cbv beta iota.
  set (n := (2 * List.length (123%N :: t))%nat).
  change (Json.scan_once (S n) (123%N :: t)) with
    (match Json.skip_ws t with
     | c1 :: r1 =>
         if N.eqb c1 125 then Ok (VDict [], r1)
         else if N.eqb c1 34 then
           ('(ps, rest) <- Json.scan_pairs n r1 ;;
            Ok (VDict (Json.dict_of_pairs ps), rest))%py
         else Raise JSONDecodeError
     | [] => Raise JSONDecodeError
     end).
  destruct (Json.skip_ws t) as [|c1 r1]; [discriminate|].
  destruct (N.eqb c1 125).
  - simpl. destruct (Json.skip_ws r1); [|discriminate].
    intros H. injection H as <-. eexists. reflexivity.
  - destruct (N.eqb c1 34); [|discriminate].
    destruct (Json.scan_pairs n r1) as [[ps rest]|e]; [|discriminate].
    simpl. destruct (Json.skip_ws rest); [|discriminate].
    intros H. injection H as <-. eexists. reflexivity.
Qed.

(** The query state of a landing page is a dict, so that [with_filters]
    cannot fail on it. *)
Lemma with_filters_ok (html m : str) (ms : list str) (qd0 filters : value) :
  Re.findall html = m :: ms ->
  Json.loads_str m = Ok qd0 ->
  exists qd, with_filters qd0 filters = Ok qd.
Proof.
  intros Hfind Hload.
  destruct (findall_from_brace html O m) as [t ->].
  { unfold Re.findall in Hfind. rewrite Hfind. left. reflexivity. }
  destruct (loads_str_brace _ _ Hload) as [d ->].
  unfold with_filters. destruct (truthy filters); eexists; reflexivity.
Qed.

Section Answers.

Variable w : world.
Variable page : str -> str.
Variable data : str -> value.
Variable total : str -> Z.
Variable results : str -> list value.


End Answers.




(** The result of the example: the two listings of cat1, then the one of
    cat2. *)
Example concatenated_run :
  fst (zillow_request Examples.search_world Examples.honolulu VNone
         default_categories start)
  = Ok [Examples.listing 1; Examples.listing 2; Examples.listing 3].
Proof. vm_compute. reflexivity. Qed.

(** ** The round trip through JSON text *)

Module JsonFacts.

Import Json Shape.
Local Open Scope N_scope.

Ltac divmod_N :=
  repeat match goal with
  | |- context [?a / ?b] =>
      let q := fresh "q" in let r := fresh "r" in
      let H1 := fresh in let H2 := fresh in
      assert (H1 := N.div_mod a b ltac:(discriminate));
      assert (H2 := N.mod_lt a b ltac:(discriminate));
      set (q := a / b) in *; set (r := a mod b) in *; clearbody q r
  | |- context [?a mod ?b] =>
      let q := fresh "q" in let r := fresh "r" in
      let H1 := fresh in let H2 := fresh in
      assert (H1 := N.div_mod a b ltac:(discriminate));
      assert (H2 := N.mod_lt a b ltac:(discriminate));
      set (q := a / b) in *; set (r := a mod b) in *; clearbody q r
  end.

(** Comparisons of the goal and of the hypotheses, as propositions. *)
Ltac cmp_N :=
  repeat match goal with
  | H : context [N.eqb ?a ?b] |- _ => destruct (N.eqb_spec a b)
  | H : context [N.leb ?a ?b] |- _ => destruct (N.leb_spec a b)
  | H : context [N.ltb ?a ?b] |- _ => destruct (N.ltb_spec a b)
  | |- context [N.eqb ?a ?b] => destruct (N.eqb_spec a b)
  | |- context [N.leb ?a ?b] => destruct (N.leb_spec a b)
  | |- context [N.ltb ?a ?b] => destruct (N.ltb_spec a b)
  end.

Lemma hexval_hexdigit (d : N) : d < 16 -> hexval (hexdigit d) = Some d.
Proof.
  intros H. unfold hexval, hexdigit, is_digit.
  cmp_N; cbn [andb]; try (exfalso; lia); f_equal; lia.
Qed.

Lemma hex4_uescape (n : N) :
  n < 65536 ->
  exists h1 h2 h3 h4,
    uescape n = [92; 117; h1; h2; h3; h4] /\ hex4 h1 h2 h3 h4 = Some n.
Proof.
  intros H. unfold uescape. do 4 eexists. split; [reflexivity|].
  unfold hex4.
  rewrite !hexval_hexdigit by (apply N.mod_lt; discriminate).
  f_equal. divmod_N. lia.
Qed.

Lemma scanstring_plain (c : N) (r : str) :
  c <> 34 -> c <> 92 -> 32 <= c ->
  scanstring (c :: r)
  = ('(t, rest) <- scanstring r ;; Ok (c :: t, rest))%py.
Proof.
  intros H1 H2 H3. simpl.
  destruct (N.eqb_spec c 34); [contradiction|].
  destruct (N.eqb_spec c 92); [contradiction|].
  destruct (N.ltb_spec c 32); [lia|]. reflexivity.
Qed.

Lemma scanstring_u (h1 h2 h3 h4 u : N) (r : str) :
  hex4 h1 h2 h3 h4 = Some u -> is_high u && pairs_with r = false ->
  scanstring (92 :: 117 :: h1 :: h2 :: h3 :: h4 :: r)
  = ('(t, rest) <- scanstring r ;; Ok (u :: t, rest))%py.
Proof.
  intros H1 H2. cbn [scanstring].
  change (92 =? 34) with false. change (92 =? 92) with true.
  change (117 =? 117) with true. cbv iota. rewrite H1.
  destruct (is_high u); [|reflexivity]. cbn [andb] in H2.
  destruct r as [|b [|e [|l1 [|l2 [|l3 [|l4 r3]]]]]]; try reflexivity.
  unfold pairs_with in H2.
  destruct ((b =? 92) && (e =? 117)); [|reflexivity].
  cbn [andb] in H2. destruct (hex4 l1 l2 l3 l4); [|discriminate].
  rewrite H2. reflexivity.
Qed.

Lemma scanstring_pair (h1 h2 h3 h4 l1 l2 l3 l4 u u2 : N) (r : str) :
  hex4 h1 h2 h3 h4 = Some u -> is_high u = true ->
  hex4 l1 l2 l3 l4 = Some u2 -> is_low u2 = true ->
  scanstring (92 :: 117 :: h1 :: h2 :: h3 :: h4
              :: 92 :: 117 :: l1 :: l2 :: l3 :: l4 :: r)
  = ('(t, rest) <- scanstring r ;; Ok (join_surrogates u u2 :: t, rest))%py.
Proof. intros H1 H2 H3 H4. simpl. rewrite H1, H2, H3, H4. reflexivity. Qed.

(** The two escapes of a character beyond the basic plane. *)
Lemma astral_escapes (c : N) :
  65536 <= c -> c < 1114112 ->
  exists h1 h2 h3 h4 l1 l2 l3 l4 hi lo,
    uescape (55296 + (c - 65536) / 1024 mod 1024) = [92; 117; h1; h2; h3; h4] /\
    uescape (56320 + (c - 65536) mod 1024) = [92; 117; l1; l2; l3; l4] /\
    hex4 h1 h2 h3 h4 = Some hi /\ is_high hi = true /\ is_low hi = false /\
    hex4 l1 l2 l3 l4 = Some lo /\ is_low lo = true /\
    join_surrogates hi lo = c.
Proof.
  intros Hmin Hmax. set (n := c - 65536).
  assert (Hhi : 55296 <= 55296 + n / 1024 mod 1024 <= 56319)
    by (subst n; divmod_N; lia).
  assert (Hlo : 56320 <= 56320 + n mod 1024 <= 57343)
    by (subst n; divmod_N; lia).
  destruct (hex4_uescape (55296 + n / 1024 mod 1024) ltac:(lia))
    as (h1 & h2 & h3 & h4 & E1 & Hh).
  destruct (hex4_uescape (56320 + n mod 1024) ltac:(lia))
    as (l1 & l2 & l3 & l4 & E2 & Hl).
  exists h1, h2, h3, h4, l1, l2, l3, l4. do 2 eexists.
  split; [exact E1|]. split; [exact E2|]. split; [exact Hh|].
  split; [unfold is_high; apply andb_true_intro; split; apply N.leb_le; lia|].
  split; [unfold is_low; apply andb_false_intro1, N.leb_gt; lia|].
  split; [exact Hl|].
  split; [unfold is_low; apply andb_true_intro; split; apply N.leb_le; lia|].
  unfold join_surrogates. subst n. divmod_N. lia.
Qed.

(** What the text of a character starts with is not the escape of a low
    surrogate, unless the character is one. *)
Lemma escape_char_pairs_with (c : N) (tail : str) :
  (c <? 0x110000) = true -> is_low c = false ->
  pairs_with (escape_char c ++ tail) = false.
Proof.
  intros Hmax Hlow. apply N.ltb_lt in Hmax. unfold escape_char.
  destruct (N.eqb_spec c 34) as [->|H34];
    [destruct tail as [|? [|? [|? [|? ?]]]]; reflexivity|].
  destruct (N.eqb_spec c 92) as [->|H92];
    [destruct tail as [|? [|? [|? [|? ?]]]]; reflexivity|].
  destruct (N.eqb_spec c 10) as [->|H10];
    [destruct tail as [|? [|? [|? [|? ?]]]]; reflexivity|].
  destruct (N.eqb_spec c 13) as [->|H13];
    [destruct tail as [|? [|? [|? [|? ?]]]]; reflexivity|].
  destruct (N.eqb_spec c 9) as [->|H9];
    [destruct tail as [|? [|? [|? [|? ?]]]]; reflexivity|].
  destruct (N.eqb_spec c 8) as [->|H8];
    [destruct tail as [|? [|? [|? [|? ?]]]]; reflexivity|].
  destruct (N.eqb_spec c 12) as [->|H12];
    [destruct tail as [|? [|? [|? [|? ?]]]]; reflexivity|].
  destruct ((32 <=? c) && (c <=? 126)) eqn:Hprint.
  - destruct tail as [|? [|? [|? [|? [|? ?]]]]]; try reflexivity.
    cbn [app pairs_with]. destruct (N.eqb_spec c 92); [contradiction|reflexivity].
  - destruct (N.ltb_spec c 65536) as [Hbmp|Hastral].
    + destruct (hex4_uescape c Hbmp) as (h1 & h2 & h3 & h4 & -> & Hhex).
      cbn [app pairs_with]. rewrite Hhex, Hlow. reflexivity.
    + destruct (astral_escapes c Hastral Hmax)
        as (h1 & h2 & h3 & h4 & l1 & l2 & l3 & l4 & hi & lo
            & -> & -> & Hh & _ & Hnl & _).
      cbn [app pairs_with]. rewrite Hh, Hnl. reflexivity.
Qed.

(** One character of a string, written out and read back. *)
Lemma scanstring_escape_char (c : N) (tail : str) :
  (c <? 0x110000) = true -> is_high c && pairs_with tail = false ->
  scanstring (escape_char c ++ tail)
  = ('(t, rest) <- scanstring tail ;; Ok (c :: t, rest))%py.
Proof.
  intros Hmax Hpair. apply N.ltb_lt in Hmax. unfold escape_char.
  destruct (N.eqb_spec c 34) as [->|H34]; [reflexivity|].
  destruct (N.eqb_spec c 92) as [->|H92]; [reflexivity|].
  destruct (N.eqb_spec c 10) as [->|H10]; [reflexivity|].
  destruct (N.eqb_spec c 13) as [->|H13]; [reflexivity|].
  destruct (N.eqb_spec c 9) as [->|H9]; [reflexivity|].
  destruct (N.eqb_spec c 8) as [->|H8]; [reflexivity|].
  destruct (N.eqb_spec c 12) as [->|H12]; [reflexivity|].
  destruct ((32 <=? c) && (c <=? 126)) eqn:Hprint.
  - apply andb_prop in Hprint as [Hlo _]. apply N.leb_le in Hlo.
    apply scanstring_plain; assumption.
  - destruct (N.ltb_spec c 65536) as [Hbmp|Hastral].
    + destruct (hex4_uescape c Hbmp) as (h1 & h2 & h3 & h4 & -> & Hhex).
      apply (scanstring_u _ _ _ _ _ _ Hhex Hpair).
    + destruct (astral_escapes c Hastral Hmax)
        as (h1 & h2 & h3 & h4 & l1 & l2 & l3 & l4 & hi & lo
            & -> & -> & Hh & Hhigh & _ & Hl & Hlow & <-).
      apply (scanstring_pair _ _ _ _ _ _ _ _ _ _ _ Hh Hhigh Hl Hlow).
Qed.

Lemma text_pairs_with (s rest : str) :
  Spec.text s = true ->
  match s with c :: _ => is_low c = false | [] => True end ->
  pairs_with (flat_map escape_char s ++ 34 :: rest) = false.
Proof.
  destruct s as [|c s]; intros Ht Hc.
  - destruct rest as [|? [|? [|? [|? [|? ?]]]]]; reflexivity.
  - cbn [Spec.text] in Ht. apply andb_prop in Ht as [Ht _].
    apply andb_prop in Ht as [Hmax _].
    cbn [flat_map]. rewrite <- app_assoc.
    apply escape_char_pairs_with; assumption.
Qed.

Lemma scanstring_escape (s rest : str) :
  Spec.text s = true ->
  scanstring (flat_map escape_char s ++ 34 :: rest) = Ok (s, rest).
Proof.
  induction s as [|c s IH]; intros H.
  - reflexivity.
  - pose proof H as Ht. cbn [Spec.text] in H.
    apply andb_prop in H as [H Hs]. apply andb_prop in H as [Hmax Hadj].
    cbn [flat_map]. rewrite <- app_assoc.
    rewrite (scanstring_escape_char c); [rewrite (IH Hs); reflexivity|exact Hmax|].
    destruct (is_high c); [|reflexivity]. cbn [andb] in *.
    apply text_pairs_with; [exact Hs|].
    destruct s as [|c2 s]; [exact I|].
    apply negb_true_iff in Hadj. exact Hadj.
Qed.

(** *** Integers *)

Lemma pow2_half (n p : N) : n < 2 * p -> n / 10 < p.
Proof. intros H. divmod_N. lia. Qed.

Lemma digits_of_value (f : nat) :
  forall n, n < 2 ^ N.of_nat f ->
  exists p, forall acc rest,
    scan_digits (digits_of f n ++ rest) acc = scan_digits rest (acc * p + n).
Proof.
  assert (Hone : forall d, d < 10 -> forall acc rest,
            scan_digits ((48 + d) :: rest) acc
            = scan_digits rest (10 * acc + d)).
  { intros d Hd acc rest. cbn [scan_digits]. unfold is_digit.
    destruct (N.leb_spec 48 (48 + d)); [|lia].
    destruct (N.leb_spec (48 + d) 57); [|lia].
    cbn [andb]. f_equal. lia. }
  induction f as [|f IH]; intros n Hn.
  - exists 10. intros acc rest.
    change (2 ^ N.of_nat 0) with 1 in Hn.
    assert (n = 0) by lia. subst n.
    cbn [digits_of app]. change (0 mod 10) with 0.
    rewrite Hone by lia. f_equal. lia.
  - cbn [digits_of]. destruct (N.ltb_spec n 10) as [Hsmall|Hbig].
    + exists 10. intros acc rest. cbn [app].
      rewrite Hone by assumption. f_equal. lia.
    + rewrite Nat2N.inj_succ, N.pow_succ_r' in Hn.
      destruct (IH (n / 10) (pow2_half _ _ Hn)) as [p Hp].
      exists (10 * p). intros acc rest.
      rewrite <- app_assoc. cbn [app]. rewrite Hp.
      rewrite Hone by (apply N.mod_lt; discriminate).
      f_equal. divmod_N. lia.
Qed.

Lemma digits_of_head (f : nat) :
  forall n, n < 2 ^ N.of_nat f ->
  exists c t,
    digits_of f n = c :: t /\ is_digit c = true /\ (0 < n -> c <> 48).
Proof.
  assert (Hdigit : forall d, d < 10 -> is_digit (48 + d) = true).
  { intros d Hd. unfold is_digit. apply andb_true_intro.
    split; apply N.leb_le; lia. }
  induction f as [|f IH]; intros n Hn.
  - change (2 ^ N.of_nat 0) with 1 in Hn.
    exists (48 + n mod 10), []. split; [reflexivity|].
    split; [apply Hdigit, N.mod_lt; discriminate|lia].
  - cbn [digits_of]. destruct (N.ltb_spec n 10) as [Hsmall|Hbig].
    + exists (48 + n), []. split; [reflexivity|].
      split; [apply Hdigit, Hsmall|lia].
    + rewrite Nat2N.inj_succ, N.pow_succ_r' in Hn.
      destruct (IH (n / 10) (pow2_half _ _ Hn)) as (c & t & -> & Hc & Hnz).
      exists c, (t ++ [48 + n mod 10]). split; [reflexivity|].
      split; [exact Hc|]. intros _. apply Hnz. divmod_N. lia.
Qed.

Lemma size_bound (n : N) : n < 2 ^ N.of_nat (N.to_nat (N.size n)).
Proof. rewrite N2Nat.id. apply N.size_gt. Qed.

Lemma scan_digits_end (rest : str) (n : N) :
  ends_number rest = true -> scan_digits rest n = (n, rest).
Proof.
  destruct rest as [|c rest]; [reflexivity|].
  unfold ends_number. cbn [scan_digits].
  destruct (is_digit c); [discriminate|reflexivity].
Qed.

Lemma float_tail_end (rest : str) :
  ends_number rest = true -> float_tail rest = false.
Proof.
  destruct rest as [|c [|d rest]]; try reflexivity.
  unfold ends_number, float_tail.
  destruct (is_digit c); [discriminate|].
  destruct (N.eqb c 46); [discriminate|].
  destruct (N.eqb c 101); [discriminate|].
  destruct (N.eqb c 69); [discriminate|reflexivity].
Qed.

(** The digits of a positive number, read back. *)
Lemma match_digits (n : N) (rest : str) :
  0 < n -> ends_number rest = true ->
  exists c t,
    encode_nat n = c :: t /\ is_digit c = true /\ c <> 48 /\
    scan_digits (t ++ rest) (c - 48) = (n, rest).
Proof.
  intros Hpos Hend. unfold encode_nat.
  destruct (digits_of_head _ n (size_bound n)) as (c & t & E & Hc & Hnz).
  destruct (digits_of_value _ n (size_bound n)) as [p Hp].
  exists c, t. split; [exact E|]. split; [exact Hc|]. split; [exact (Hnz Hpos)|].
  specialize (Hp 0 rest). rewrite E in Hp. cbn [app scan_digits] in Hp.
  rewrite Hc in Hp. change (10 * 0 + (c - 48)) with (c - 48) in Hp.
  rewrite Hp. change (0 * p + n) with n. apply scan_digits_end, Hend.
Qed.

Lemma is_digit_range (c : N) : is_digit c = true -> 48 <= c <= 57.
Proof.
  unfold is_digit. intros H. apply andb_prop in H as [H1 H2].
  apply N.leb_le in H1, H2. lia.
Qed.

Lemma match_int_encode (z : Z) (rest : str) :
  ends_number rest = true ->
  match_int (encode_int z ++ rest) = Some (z, rest).
Proof.
  intros Hend. unfold encode_int.
  destruct (Z.ltb_spec z 0) as [Hneg|Hpos].
  - destruct (match_digits (Z.to_N (- z)) rest ltac:(lia) Hend)
      as (c & t & E & Hc & Hnz & Hscan).
    rewrite E. unfold match_int. cbn [app]. change (45 =? 45) with true.
    cbv iota beta.
    destruct (N.eqb_spec c 48); [contradiction|]. rewrite Hc, Hscan.
    do 2 f_equal. lia.
  - destruct (Z.eq_dec z 0) as [->|Hnz0]; [reflexivity|].
    destruct (match_digits (Z.to_N z) rest ltac:(lia) Hend)
      as (c & t & E & Hc & Hnz & Hscan).
    rewrite E. unfold match_int. cbn [app].
    pose proof (is_digit_range c Hc) as Hr.
    destruct (N.eqb_spec c 45); [lia|]. cbv iota beta.
    destruct (N.eqb_spec c 48); [contradiction|]. rewrite Hc, Hscan.
    do 2 f_equal. lia.
Qed.

Lemma encode_int_head (z : Z) :
  exists c t, encode_int z = c :: t /\ (c = 45 \/ is_digit c = true).
Proof.
  unfold encode_int. destruct (Z.ltb z 0).
  - do 2 eexists. split; [reflexivity|]. left. reflexivity.
  - unfold encode_nat.
    destruct (digits_of_head _ (Z.to_N z) (size_bound _)) as (c & t & E & Hc & _).
    exists c, t. split; [exact E|]. right. exact Hc.
Qed.

Lemma startswith_other (p : str) (a c : N) (t : str) :
  a <> c -> startswith (a :: p) (c :: t) = false.
Proof. intros H. cbn [startswith]. destruct (N.eqb_spec a c); [contradiction|reflexivity]. Qed.

Lemma scan_once_number (n : nat) (c : N) (t : str) :
  c = 45 \/ is_digit c = true ->
  scan_once (S n) (c :: t)
  = match match_int (c :: t) with
    | Some (z, rest) =>
        if float_tail rest then Raise Unmodelled else Ok (VInt z, rest)
    | None =>
        if startswith (lit "NaN") (c :: t) || startswith (lit "Infinity") (c :: t)
           || startswith (lit "-Infinity") (c :: t)
        then Raise Unmodelled
        else Raise JSONDecodeError
    end.
Proof.
  intros H. cbn [scan_once].
  assert (Hr : c = 45 \/ 48 <= c <= 57)
    by (destruct H as [H|H]; [left; exact H|right; apply is_digit_range, H]).
  destruct (N.eqb_spec c 34); [lia|].
  destruct (N.eqb_spec c 123); [lia|].
  destruct (N.eqb_spec c 91); [lia|].
  change (lit "null") with [110; 117; 108; 108].
  change (lit "true") with [116; 114; 117; 101].
  change (lit "false") with [102; 97; 108; 115; 101].
  rewrite !startswith_other by lia. reflexivity.
Qed.

Lemma scan_once_int (n : nat) (z : Z) (rest : str) :
  ends_number rest = true ->
  scan_once (S n) (encode_int z ++ rest) = Ok (VInt z, rest).
Proof.
  intros Hend. pose proof (match_int_encode z rest Hend) as Hm.
  destruct (encode_int_head z) as (c & t & E & Hc).
  rewrite E in *. cbn [app] in *.
  rewrite (scan_once_number n c _ Hc), Hm, (float_tail_end _ Hend).
  reflexivity.
Qed.

(** *** Heads of texts and white space *)

Lemma skip_ws_value (c : N) (t : str) :
  starts_value c = true -> skip_ws (c :: t) = c :: t.
Proof.
  unfold starts_value. intros H. cbn [skip_ws].
  destruct (is_ws c); [discriminate|reflexivity].
Qed.

Lemma skip_ws_space (s : str) : skip_ws (32 :: s) = skip_ws s.
Proof. reflexivity. Qed.

Lemma skip_ws_other (c : N) (s : str) :
  is_ws c = false -> skip_ws (c :: s) = c :: s.
Proof. intros H. cbn [skip_ws]. rewrite H. reflexivity. Qed.

Lemma starts_value_not_bracket (c : N) :
  starts_value c = true -> (c =? 93) = false.
Proof.
  unfold starts_value. destruct (is_ws c); [discriminate|].
  destruct (c =? 93); [discriminate|reflexivity].
Qed.

Lemma starts_value_not_bom (c : N) (t : str) :
  starts_value c = true -> startswith [0xFEFF] (c :: t) = false.
Proof.
  unfold starts_value. intros H. cbn [startswith].
  rewrite N.eqb_sym. destruct (c =? 0xFEFF).
  - rewrite andb_false_r in H. discriminate.
  - reflexivity.
Qed.

Lemma dumps_head (v : value) :
  exists c t, dumps v = c :: t /\ starts_value c = true.
Proof.
  destruct v as [|[|]|z|s|l|d]; try (do 2 eexists; split; reflexivity).
  destruct (encode_int_head z) as (c & t & E & Hc).
  exists c, t. split; [exact E|].
  assert (Hr : c = 45 \/ 48 <= c <= 57)
    by (destruct Hc as [H|H]; [left; exact H|right; apply is_digit_range, H]).
  unfold starts_value, is_ws.
  repeat match goal with
         | |- context [N.eqb c ?k] => destruct (N.eqb_spec c k); [lia|]
         end.
  reflexivity.
Qed.

Lemma join_head {A} (f : A -> str) (l : list A) :
  (forall x, exists c t, f x = c :: t /\ starts_value c = true) ->
  l <> [] ->
  exists c t, join (map f l) = c :: t /\ starts_value c = true.
Proof.
  intros Hf Hl. destruct l as [|x l]; [contradiction|].
  destruct (Hf x) as (c & t & E & Hc).
  destruct l as [|y l]; cbn [map join]; rewrite E.
  - exists c, t. split; [reflexivity|exact Hc].
  - eexists c, _. split; [reflexivity|exact Hc].
Qed.

(** *** Dicts built from pairs *)

Lemma mem_In (k : str) (l : list str) : Spec.mem k l = true <-> In k l.
Proof.
  induction l as [|k' l IH]; simpl; [split; [discriminate|tauto]|].
  rewrite orb_true_iff, IH, str_eqb_eq. tauto.
Qed.

Lemma distinct_NoDup (l : list str) : Spec.distinct l = true <-> NoDup l.
Proof.
  induction l as [|k l IH]; simpl.
  - split; [constructor|reflexivity].
  - rewrite andb_true_iff, negb_true_iff, IH. split.
    + intros [Hm Hd]. constructor; [|exact Hd].
      intros Hin. apply mem_In in Hin. congruence.
    + intros H. inversion H as [|? ? Hn Hd]; subst. split; [|exact Hd].
      destruct (Spec.mem k l) eqn:E; [|reflexivity].
      apply mem_In in E. contradiction.
Qed.

Lemma dict_set_fresh (d : list (str * value)) (k : str) (v : value) :
  ~ In k (map fst d) -> dict_set d k v = d ++ [(k, v)].
Proof.
  induction d as [|[k' v'] d IH]; intros Hn; [reflexivity|].
  cbn [dict_set app]. destruct (str_eqb k' k) eqn:E.
  - apply str_eqb_eq in E. subst k'. exfalso. apply Hn. left. reflexivity.
  - rewrite IH; [reflexivity|]. intros Hin. apply Hn. right. exact Hin.
Qed.

Lemma dict_of_pairs_distinct (d : list (str * value)) :
  Spec.distinct (map fst d) = true -> dict_of_pairs d = d.
Proof.
  intros H. apply distinct_NoDup in H. unfold dict_of_pairs.
  enough (G : forall ps acc, NoDup (map fst (acc ++ ps)) ->
            fold_left (fun d kv => dict_set d (fst kv) (snd kv)) ps acc
            = acc ++ ps) by (apply (G d []), H).
  induction ps as [|[k v] ps IH]; intros acc Hnd.
  - rewrite app_nil_r. reflexivity.
  - cbn [fold_left fst snd]. rewrite dict_set_fresh.
    + rewrite IH; rewrite <- app_assoc; [reflexivity|exact Hnd].
    + rewrite map_app in Hnd. cbn [map fst] in Hnd.
      apply NoDup_remove_2 in Hnd. intros Hin. apply Hnd.
      apply in_or_app. left. exact Hin.
Qed.

(** *** The text of a value, read back *)

Lemma list_sum_cons (a : nat) (l : list nat) :
  list_sum (a :: l) = (a + list_sum l)%nat.
Proof. reflexivity. Qed.

Lemma scan_items_join (l : list value) :
  Forall reads l -> l <> [] ->
  forall (n : nat) (rest : str),
    (list_sum (map (fun x => S (need x)) l) <= n)%nat ->
    scan_items n (join (map dumps l) ++ 93 :: rest) = Ok (l, rest).
Proof.
  induction 1 as [|x l Hx Hl IH]; intros Hne n rest Hn; [contradiction|].
  rewrite map_cons, list_sum_cons in Hn. destruct n as [|n]; [lia|].
  unfold reads in Hx.
  cbn [scan_items]. destruct l as [|y l].
  - cbn [map join]. rewrite Hx by (cbn in *; try reflexivity; lia).
    reflexivity.
  - change (join (map dumps (x :: y :: l)))
      with (dumps x ++ 44 :: 32 :: join (map dumps (y :: l))).
    rewrite <- app_assoc. cbn [app].
    rewrite Hx by (try reflexivity; lia).
    destruct (join_head dumps (y :: l) dumps_head ltac:(discriminate))
      as (c & t & E & Hc).
    cbn [bind]. rewrite (skip_ws_other 44) by reflexivity. cbv beta iota.
    change (44 =? 93) with false. change (44 =? 44) with true. cbv iota.
    rewrite skip_ws_space, E. cbn [app]. rewrite (skip_ws_value c _ Hc).
    change (c :: t ++ 93 :: rest) with ((c :: t) ++ 93 :: rest).
    rewrite <- E. rewrite IH by (try discriminate; lia). reflexivity.
Qed.

Lemma member_head (kv : str * value) :
  exists c t,
    encode_string (fst kv) ++ 58 :: 32 :: dumps (snd kv) = c :: t /\
    starts_value c = true.
Proof. do 2 eexists. split; reflexivity. Qed.

Lemma join_members (d : list (str * value)) :
  d <> [] ->
  join (map (fun kv => encode_string (fst kv) ++ 58 :: 32 :: dumps (snd kv)) d)
  = 34 :: members_tail d.
Proof.
  assert (Hm : forall kv,
            encode_string (fst kv) ++ 58 :: 32 :: dumps (snd kv)
            = 34 :: member_tail kv).
  { intros kv. unfold encode_string, member_tail. cbn [app].
    rewrite <- app_assoc. reflexivity. }
  induction d as [|kv d IH]; intros Hne; [contradiction|].
  destruct d as [|kv' d].
  - cbn [map join members_tail]. apply Hm.
  - change (members_tail (kv :: kv' :: d))
      with (member_tail kv ++ 44 :: 32 :: 34 :: members_tail (kv' :: d)).
    rewrite <- IH by discriminate.
    cbn [map join]. rewrite Hm. reflexivity.
Qed.

Lemma scan_pairs_members (d : list (str * value)) :
  Forall (fun kv => reads (snd kv)) d -> d <> [] ->
  forallb (fun kv => Spec.text (fst kv)) d = true ->
  forall (n : nat) (rest : str),
    (list_sum (map (fun kv => S (need (snd kv))) d) <= n)%nat ->
    scan_pairs n (members_tail d ++ 125 :: rest) = Ok (d, rest).
Proof.
  induction 1 as [|[k v] d Hv Hd IH]; intros Hne Htext n rest Hn;
    [contradiction|].
  rewrite map_cons, list_sum_cons in Hn. cbn [snd] in Hn.
  destruct n as [|n]; [lia|].
  cbn [forallb fst] in Htext. apply andb_prop in Htext as [Hk Htext].
  cbn [snd] in Hv. unfold reads in Hv.
  destruct (dumps_head v) as (c & t & E & Hc).
  cbn [scan_pairs]. destruct d as [|kv' d].
  - cbn [members_tail]. unfold member_tail. cbn [fst snd].
    rewrite <- app_assoc. cbn [app].
    rewrite (scanstring_escape k _ Hk).
    cbn [bind]. rewrite (skip_ws_other 58) by reflexivity. cbv beta iota.
    change (58 =? 58) with true. cbv iota.
    rewrite skip_ws_space, E. cbn [app]. rewrite (skip_ws_value c _ Hc).
    change (c :: t ++ 125 :: rest) with ((c :: t) ++ 125 :: rest).
    rewrite <- E. rewrite Hv by (try reflexivity; lia). reflexivity.
  - change (members_tail ((k, v) :: kv' :: d))
      with (member_tail (k, v) ++ 44 :: 32 :: 34 :: members_tail (kv' :: d)).
    unfold member_tail at 1. cbn [fst snd].
    repeat (rewrite <- app_assoc; cbn [app]).
    rewrite (scanstring_escape k _ Hk).
    cbn [bind]. rewrite (skip_ws_other 58) by reflexivity. cbv beta iota.
    change (58 =? 58) with true. cbv iota.
    rewrite skip_ws_space, E. cbn [app]. rewrite (skip_ws_value c _ Hc).
    match goal with
    | |- context [scan_once n (c :: t ++ ?tail)] =>
        change (c :: t ++ tail) with ((c :: t) ++ tail)
    end.
    rewrite <- E. rewrite Hv by (try reflexivity; lia).
    cbn [bind]. rewrite (skip_ws_other 44) by reflexivity. cbv beta iota.
    change (44 =? 125) with false. change (44 =? 44) with true. cbv iota.
    rewrite skip_ws_space, (skip_ws_other 34) by reflexivity. cbv beta iota.
    change (34 =? 34) with true. cbv iota.
    rewrite IH by (try discriminate; try assumption; lia). reflexivity.
Qed.

Lemma forallb_Forall_reads (l : list value) :
  Forall (fun v => Spec.json_safe v = true -> reads v) l ->
  forallb Spec.json_safe l = true -> Forall reads l.
Proof.
  induction 1 as [|x l Hx _ IH]; intros H; [constructor|].
  cbn [forallb] in H. apply andb_prop in H as [H1 H2].
  constructor; [exact (Hx H1)|exact (IH H2)].
Qed.

Lemma forallb_Forall_reads_snd (d : list (str * value)) :
  Forall (fun kv => Spec.json_safe (snd kv) = true -> reads (snd kv)) d ->
  forallb (fun kv => Spec.text (fst kv) && Spec.json_safe (snd kv)) d = true ->
  Forall (fun kv => reads (snd kv)) d /\
  forallb (fun kv => Spec.text (fst kv)) d = true.
Proof.
  induction 1 as [|kv d Hkv _ IH]; intros H; [split; [constructor|reflexivity]|].
  cbn [forallb] in H. apply andb_prop in H as [H1 H2].
  apply andb_prop in H1 as [Hk Hv]. destruct (IH H2) as [IH1 IH2].
  split; [constructor; [exact (Hkv Hv)|exact IH1]|].
  cbn [forallb]. rewrite Hk, IH2. reflexivity.
Qed.

(** Every JSON-safe value is read back from its text. *)
Lemma scan_once_dumps (v : value) : Spec.json_safe v = true -> reads v.
Proof.
  induction v as [|b|z|s|l IH|d IH] using value_ind; intros Hsafe n rest Hn Hend;
    cbn [need] in Hn; (destruct n as [|n]; [lia|]).
  - reflexivity.
  - destruct b; reflexivity.
  - apply scan_once_int, Hend.
  - cbn [Spec.json_safe] in Hsafe. cbn [dumps]. unfold encode_string.
    cbn [app]. rewrite <- app_assoc. cbn [app scan_once].
    change (34 =? 34) with true. cbv iota.
    rewrite (scanstring_escape s rest Hsafe). reflexivity.
  - cbn [Spec.json_safe] in Hsafe.
    pose proof (forallb_Forall_reads l IH Hsafe) as Hl.
    cbn [dumps app]. rewrite <- app_assoc. cbn [app scan_once].
    change (91 =? 34) with false. change (91 =? 123) with false.
    change (91 =? 91) with true. cbv iota.
    destruct l as [|x l]; [reflexivity|].
    destruct (join_head dumps (x :: l) dumps_head ltac:(discriminate))
      as (c & t & E & Hc).
    rewrite E at 1. cbn [app]. rewrite (skip_ws_value c _ Hc).
    rewrite (starts_value_not_bracket c Hc).
    change (c :: t ++ 93 :: rest) with ((c :: t) ++ 93 :: rest).
    rewrite <- E.
    rewrite (scan_items_join (x :: l) Hl ltac:(discriminate) n rest ltac:(lia)).
    reflexivity.
  - cbn [Spec.json_safe] in Hsafe. apply andb_prop in Hsafe as [Hkeys Hsafe].
    destruct (forallb_Forall_reads_snd d IH Hsafe) as [Hd Htext].
    cbn [dumps app]. rewrite <- app_assoc. cbn [app scan_once].
    change (123 =? 34) with false. change (123 =? 123) with true. cbv iota.
    destruct d as [|kv d]; [reflexivity|].
    rewrite (join_members (kv :: d)) by discriminate.
    cbn [app]. rewrite (skip_ws_other 34) by reflexivity. cbv beta iota.
    change (34 =? 125) with false. change (34 =? 34) with true. cbv iota.
    rewrite (scan_pairs_members (kv :: d) Hd ltac:(discriminate) Htext n rest
               ltac:(lia)).
    cbn [bind]. rewrite (dict_of_pairs_distinct _ Hkeys). reflexivity.
Qed.

Lemma join_length {A} (f : A -> str) (g : A -> nat) (l : list A) :
  Forall (fun x => (g x <= List.length (f x))%nat) l ->
  (list_sum (map (fun x => S (g x)) l) <= List.length (join (map f l)) + 1)%nat.
Proof.
  induction 1 as [|x l Hx _ IH]; [cbn; lia|].
  rewrite map_cons, list_sum_cons. destruct l as [|y l].
  - simpl. lia.
  - change (join (map f (x :: y :: l)))
      with (f x ++ 44 :: 32 :: join (map f (y :: l))).
    rewrite length_app. cbn [List.length]. lia.
Qed.

Lemma need_le_length (v : value) : (need v <= List.length (dumps v))%nat.
Proof.
  induction v as [|b|z|s|l IH|d IH] using value_ind.
  - cbn. lia.
  - destruct b; cbn; lia.
  - cbn [need dumps]. destruct (encode_int_head z) as (c & t & -> & _).
    cbn [List.length]. lia.
  - cbn [need dumps]. unfold encode_string. cbn [List.length]. lia.
  - cbn [need dumps List.length]. rewrite length_app. cbn [List.length].
    pose proof (join_length dumps need l IH). lia.
  - cbn [need dumps List.length]. rewrite length_app. cbn [List.length].
    pose proof (join_length
                  (fun kv => encode_string (fst kv) ++ 58 :: 32 :: dumps (snd kv))
                  (fun kv => need (snd kv)) d) as H.
    assert (Hd : Forall (fun kv => Nat.le (need (snd kv))
                   (List.length (encode_string (fst kv) ++ 58 :: 32 :: dumps (snd kv)))) d).
    { eapply Forall_impl; [|exact IH]. intros kv Hkv. cbv beta in Hkv.
      rewrite length_app. cbn [List.length]. lia. }
    specialize (H Hd). apply le_n_S. exact H.
Qed.

(** The round trip: [json.loads(json.dumps(v))] is [v] for every JSON-safe
    value [v]. *)
Lemma loads_dumps (v : value) :
  Spec.json_safe v = true -> loads (VStr (dumps v)) = Ok v.
Proof.
  intros Hsafe. cbn [loads]. unfold loads_str.
  assert (Hfuel : (need v <= S (2 * List.length (dumps v)))%nat)
    by (pose proof (need_le_length v); lia).
  set (fuel := S (2 * List.length (dumps v))) in *.
  destruct (dumps_head v) as (c & t & E & Hc).
  rewrite E. rewrite (starts_value_not_bom c t Hc), (skip_ws_value c t Hc).
  rewrite <- E. rewrite <- (app_nil_r (dumps v)).
  rewrite (scan_once_dumps v Hsafe fuel [] Hfuel eq_refl).
  reflexivity.
Qed.

(** *** The bound on nested calls is never reached *)

Lemma skip_ws_length (s : str) : (List.length (skip_ws s) <= List.length s)%nat.
Proof.
  induction s as [|c s IH]; [reflexivity|].
  cbn [skip_ws]. destruct (is_ws c); cbn [List.length]; lia.
Qed.

Ltac break_match H :=
  match type of H with
  | context [match ?x with _ => _ end] => destruct x eqn:?
  end.

Lemma scanstring_length_le (k : nat) :
  forall s t r, (List.length s <= k)%nat ->
    scanstring s = Ok (t, r) -> (List.length r < List.length s)%nat.
Proof.
  induction k as [|k IH]; intros s t r Hk H.
  - destruct s; [discriminate|cbn in Hk; lia].
  - destruct s as [|c s]; [discriminate|].
    cbn [scanstring] in H.
    repeat first [discriminate | break_match H | progress unfold bind in H];
      subst; cbn [List.length] in *;
      repeat match goal with
             | E : scanstring ?x = Ok (_, _) |- _ =>
                 apply IH in E; [|cbn [List.length] in *; lia]
             end;
      injection H as <- <-; cbn [List.length] in *; lia.
Qed.

Lemma scanstring_length (s t r : str) :
  scanstring s = Ok (t, r) -> (List.length r < List.length s)%nat.
Proof. apply (scanstring_length_le (List.length s)). lia. Qed.

Lemma scan_digits_length (s : str) :
  forall acc n r, scan_digits s acc = (n, r) ->
    (List.length r <= List.length s)%nat.
Proof.
  induction s as [|c s IH]; intros acc n r H.
  - injection H as <- <-. reflexivity.
  - cbn [scan_digits] in H. destruct (is_digit c).
    + apply IH in H. cbn [List.length]. lia.
    + injection H as <- <-. reflexivity.
Qed.

Lemma match_int_length (s r : str) (z : Z) :
  match_int s = Some (z, r) -> (List.length r < List.length s)%nat.
Proof.
  assert (G : forall (neg : bool) (s1 : str),
            match s1 with
            | c :: r0 =>
                if c =? 48 then Some (0%Z, r0)
                else if is_digit c then
                  let '(n, r') := scan_digits r0 (c - 48) in
                  Some (if neg then Z.opp (Z.of_N n) else Z.of_N n, r')
                else None
            | [] => None
            end = Some (z, r) -> (List.length r < List.length s1)%nat).
  { intros neg [|c r0] H; [discriminate|]. cbn [List.length].
    destruct (c =? 48); [injection H as <- <-; lia|].
    destruct (is_digit c); [|discriminate].
    destruct (scan_digits r0 (c - 48)) as [n r'] eqn:E.
    apply scan_digits_length in E. injection H as <- <-. lia. }
  unfold match_int. destruct s as [|c r0]; [discriminate|].
  destruct (c =? 45); intros H;
    [apply (G true r0) in H|apply (G false (c :: r0)) in H];
    cbn [List.length] in *; lia.
Qed.

Lemma startswith_skipn (p s : str) :
  startswith p s = true ->
  (List.length (skipn (List.length p) s) + List.length p = List.length s)%nat.
Proof.
  revert s. induction p as [|a p IH]; intros s H.
  - cbn. lia.
  - destruct s as [|b s]; [discriminate|].
    cbn [startswith] in H. apply andb_prop in H as [_ H].
    apply IH in H. cbn [List.length skipn]. lia.
Qed.

(** Every scanner leaves less text than it was given. *)
Lemma scan_length (n : nat) :
  (forall s v r, scan_once n s = Ok (v, r) ->
     (List.length r < List.length s)%nat) /\
  (forall s l r, scan_items n s = Ok (l, r) ->
     (List.length r < List.length s)%nat) /\
  (forall s d r, scan_pairs n s = Ok (d, r) ->
     (List.length r < List.length s)%nat).
Proof.
  induction n as [|n (IH1 & IH2 & IH3)];
    [repeat split; intros; discriminate|].
  repeat split.
  - intros s v r H. destruct s as [|c s]; [discriminate|].
    cbn [scan_once] in H.
    pose proof (skip_ws_length s) as Hws.
    destruct (c =? 34).
    { unfold bind in H. destruct (scanstring s) as [[t r']|] eqn:E;
        [|discriminate].
      apply scanstring_length in E. injection H as <- <-.
      cbn [List.length]. lia. }
    destruct (c =? 123).
    { destruct (skip_ws s) as [|c1 r1]; [discriminate|].
      cbn [List.length] in *.
      destruct (c1 =? 125); [injection H as <- <-; lia|].
      destruct (c1 =? 34); [|discriminate].
      unfold bind in H. destruct (scan_pairs n r1) as [[ps r']|] eqn:E;
        [|discriminate].
      apply IH3 in E. injection H as <- <-. lia. }
    destruct (c =? 91).
    { destruct (skip_ws s) as [|c1 r1]; [discriminate|].
      cbn [List.length] in *.
      destruct (c1 =? 93); [injection H as <- <-; lia|].
      unfold bind in H. destruct (scan_items n (c1 :: r1)) as [[vs r']|] eqn:E;
        [|discriminate].
      apply IH2 in E. injection H as <- <-. cbn [List.length] in *. lia. }
    destruct (startswith (lit "null") (c :: s)) eqn:E1.
    { apply startswith_skipn in E1.
      change (List.length (lit "null")) with 4%nat in E1.
      set (k := skipn 4 (c :: s)) in *. injection H as <- <-. lia. }
    destruct (startswith (lit "true") (c :: s)) eqn:E2.
    { apply startswith_skipn in E2.
      change (List.length (lit "true")) with 4%nat in E2.
      set (k := skipn 4 (c :: s)) in *. injection H as <- <-. lia. }
    destruct (startswith (lit "false") (c :: s)) eqn:E3.
    { apply startswith_skipn in E3.
      change (List.length (lit "false")) with 5%nat in E3.
      set (k := skipn 5 (c :: s)) in *. injection H as <- <-. lia. }
    destruct (match_int (c :: s)) as [[z r']|] eqn:E.
    + apply match_int_length in E. destruct (float_tail r'); [discriminate|].
      injection H as <- <-. exact E.
    + destruct (_ || _); discriminate.
  - intros s l r H. cbn [scan_items] in H. unfold bind in H.
    destruct (scan_once n s) as [[v r0]|] eqn:E; [|discriminate].
    apply IH1 in E. pose proof (skip_ws_length r0) as Hws.
    destruct (skip_ws r0) as [|c r1]; [discriminate|].
    cbn [List.length] in *.
    destruct (c =? 93); [injection H as <- <-; lia|].
    destruct (c =? 44); [|discriminate].
    pose proof (skip_ws_length r1) as Hws1.
    destruct (scan_items n (skip_ws r1)) as [[vs r']|] eqn:E'; [|discriminate].
    apply IH2 in E'. injection H as <- <-. lia.
  - intros s d r H. cbn [scan_pairs] in H. unfold bind in H.
    destruct (scanstring s) as [[k r0]|] eqn:E; [|discriminate].
    apply scanstring_length in E. pose proof (skip_ws_length r0) as Hws.
    destruct (skip_ws r0) as [|c r1]; [discriminate|].
    cbn [List.length] in *.
    destruct (c =? 58); [|discriminate].
    pose proof (skip_ws_length r1) as Hws1.
    destruct (scan_once n (skip_ws r1)) as [[v r2]|] eqn:E'; [|discriminate].
    apply IH1 in E'. pose proof (skip_ws_length r2) as Hws2.
    destruct (skip_ws r2) as [|c2 r3]; [discriminate|].
    cbn [List.length] in *.
    destruct (c2 =? 125); [injection H as <- <-; lia|].
    destruct (c2 =? 44); [|discriminate].
    pose proof (skip_ws_length r3) as Hws3.
    destruct (skip_ws r3) as [|c3 r4]; [discriminate|].
    cbn [List.length] in *.
    destruct (c3 =? 34); [|discriminate].
    destruct (scan_pairs n r4) as [[ps r']|] eqn:E''; [|discriminate].
    apply IH3 in E''. injection H as <- <-. lia.
Qed.

(** With a bound above twice the length of the text, the result of a
    scanner does not depend on the bound. *)
Lemma scan_fuel (n : nat) :
  (forall s m, (2 * List.length s + 1 <= n)%nat -> (n <= m)%nat ->
     scan_once n s = scan_once m s) /\
  (forall s m, (2 * List.length s + 2 <= n)%nat -> (n <= m)%nat ->
     scan_items n s = scan_items m s) /\
  (forall s m, (2 * List.length s + 2 <= n)%nat -> (n <= m)%nat ->
     scan_pairs n s = scan_pairs m s).
Proof.
  induction n as [|n (IH1 & IH2 & IH3)]; [repeat split; intros; lia|].
  destruct (scan_length n) as (L1 & L2 & L3).
  repeat split; intros s m Hn Hm; (destruct m as [|m]; [lia|]).
  - destruct s as [|c s]; [reflexivity|].
    cbn [scan_once]. cbn [List.length] in Hn.
    pose proof (skip_ws_length s) as Hws.
    destruct (skip_ws s) as [|c1 r1]; [reflexivity|].
    cbn [List.length] in Hws.
    rewrite (IH3 r1 m) by lia.
    rewrite (IH2 (c1 :: r1) m) by (cbn [List.length]; lia).
    reflexivity.
  - cbn [scan_items]. rewrite (IH1 s m) by lia.
    destruct (scan_once m s) as [[v r0]|e] eqn:E; [|reflexivity].
    rewrite <- (IH1 s m) in E by lia. apply L1 in E.
    cbn [bind]. pose proof (skip_ws_length r0) as Hws.
    destruct (skip_ws r0) as [|c r1]; [reflexivity|].
    cbn [List.length] in Hws. pose proof (skip_ws_length r1) as Hws1.
    rewrite (IH2 (skip_ws r1) m) by lia. reflexivity.
  - cbn [scan_pairs].
    destruct (scanstring s) as [[k r0]|e] eqn:E; [|reflexivity].
    apply scanstring_length in E.
    cbn [bind]. pose proof (skip_ws_length r0) as Hws.
    destruct (skip_ws r0) as [|c r1]; [reflexivity|].
    cbn [List.length] in Hws. pose proof (skip_ws_length r1) as Hws1.
    rewrite (IH1 (skip_ws r1) m) by lia.
    destruct (scan_once m (skip_ws r1)) as [[v r2]|e] eqn:E'; [|reflexivity].
    rewrite <- (IH1 (skip_ws r1) m) in E' by lia. apply L1 in E'.
    cbn [bind]. pose proof (skip_ws_length r2) as Hws2.
    destruct (skip_ws r2) as [|c2 r3]; [reflexivity|].
    cbn [List.length] in Hws2. pose proof (skip_ws_length r3) as Hws3.
    destruct (skip_ws r3) as [|c3 r4]; [reflexivity|].
    cbn [List.length] in Hws3.
    rewrite (IH3 r4 m) by lia. reflexivity.
Qed.

(** The bound [loads_str] gives is of that kind: a larger one reads the
    same value, or fails in the same way. *)
Lemma loads_str_bound (s : str) (m : nat) :
  (S (2 * List.length s) <= m)%nat ->
  scan_once m (skip_ws s) = scan_once (S (2 * List.length s)) (skip_ws s).
Proof.
  intros Hm. symmetry.
  destruct (scan_fuel (S (2 * List.length s))) as (H & _ & _).
  apply H; [|exact Hm]. pose proof (skip_ws_length s). lia.
Qed.

(** A high surrogate right before a low one does not survive the round
    trip: the two are read back as one character. *)
Example surrogate_pair_joined :
  loads (VStr (dumps (VStr [0xD83D; 0xDE00]))) = Ok (VStr [0x1F600]).
Proof. vm_compute. reflexivity. Qed.

Example lone_surrogates_kept :
  loads (VStr (dumps (VStr [0xDE00; 0xD83D; 0x41; 0xD83D])))
  = Ok (VStr [0xDE00; 0xD83D; 0x41; 0xD83D]).
Proof. apply loads_dumps. reflexivity. Qed.

End JsonFacts.

(** ** find_listings *)



(** * Further properties *)

(** ** What the operations can raise *)

Lemma coroutine_never_stop {A} (body : M A) (st : state) :
  fst (coroutine body st) <> Raise StopIteration.
Proof.
  unfold coroutine. destruct (body st) as [[a|e] st']; [discriminate|].
  destruct e; discriminate.
Qed.

Lemma coroutine_unchanged {A} (body : M A) (st : state) :
  fst (body st) <> Raise StopIteration -> coroutine body st = body st.
Proof.
  unfold coroutine. destruct (body st) as [[a|e] st']; [reflexivity|].
  destruct e; try reflexivity. intros H. exfalso. apply H. reflexivity.
Qed.

Lemma getitem_errors (v : value) (k : str) (e : exn) :
  getitem v k = Raise e -> e = KeyError \/ e = TypeError.
Proof.
  destruct v; simpl; try (intros H; injection H as <-; right; reflexivity).
  destruct (dict_get d k); [discriminate|].
  intros H. injection H as <-. left. reflexivity.
Qed.



Lemma total_of_errors (data : value) (c : str) (e : exn) :
  total_of data c = Raise e -> e = KeyError \/ e = TypeError.
Proof.
  unfold total_of, bind. intros H.
  destruct (getitem data (lit "categoryTotals")) as [v1|e1] eqn:E1;
    [|injection H as <-; exact (getitem_errors _ _ _ E1)].
  destruct (getitem v1 c) as [v2|e2] eqn:E2;
    [|injection H as <-; exact (getitem_errors _ _ _ E2)].
  exact (getitem_errors _ _ _ H).
Qed.


Module JsonErrors.

Import Json.
Local Open Scope N_scope.

Lemma scanstring_errors_le (k : nat) :
  forall s e, (List.length s <= k)%nat ->
    scanstring s = Raise e -> e = JSONDecodeError.
Proof.
  induction k as [|k IH]; intros s e Hk H.
  - destruct s; [cbn in H; congruence|cbn in Hk; lia].
  - destruct s as [|c s]; [cbn in H; congruence|].
    cbn [scanstring] in H.
    repeat first [congruence
                 | JsonFacts.break_match H
                 | progress unfold bind in H];
      subst; cbn [List.length] in *;
      try congruence;
      match goal with
      | E : scanstring ?x = Raise _ |- _ =>
          apply IH in E; [congruence|cbn [List.length] in *; lia]
      end.
Qed.

Lemma scanstring_errors (s : str) (e : exn) :
  scanstring s = Raise e -> e = JSONDecodeError.
Proof. apply (scanstring_errors_le (List.length s)). lia. Qed.

Ltac json_error :=
  solve [ left; congruence | right; left; congruence
        | unfold Further.json_errors; simpl; intuition congruence ].

(** A scanner fails with [JSONDecodeError], or because of a floating
    point literal. *)
Lemma scan_errors (n : nat) :
  (forall s e, scan_once n s = Raise e -> In e Further.json_errors) /\
  (forall s e, scan_items n s = Raise e -> In e Further.json_errors) /\
  (forall s e, scan_pairs n s = Raise e -> In e Further.json_errors).
Proof.
  induction n as [|n (IH1 & IH2 & IH3)];
    [repeat split; intros s e H; cbn in H; json_error|].
  repeat split; intros s e H.
  - destruct s as [|c s]; [cbn in H; json_error|].
    cbn [scan_once] in H.
    destruct (c =? 34).
    { unfold bind in H. destruct (scanstring s) as [[t r]|e'] eqn:E;
        [discriminate|].
      apply scanstring_errors in E. json_error. }
    destruct (c =? 123).
    { destruct (skip_ws s) as [|c1 r1]; [json_error|].
      destruct (c1 =? 125); [discriminate|].
      destruct (c1 =? 34); [|json_error].
      unfold bind in H. destruct (scan_pairs n r1) as [[ps r]|e'] eqn:E;
        [discriminate|].
      injection H as <-. exact (IH3 _ _ E). }
    destruct (c =? 91).
    { destruct (skip_ws s) as [|c1 r1]; [json_error|].
      destruct (c1 =? 93); [discriminate|].
      unfold bind in H. destruct (scan_items n (c1 :: r1)) as [[vs r]|e'] eqn:E;
        [discriminate|].
      injection H as <-. exact (IH2 _ _ E). }
    destruct (startswith (lit "null") (c :: s)); [discriminate|].
    destruct (startswith (lit "true") (c :: s)); [discriminate|].
    destruct (startswith (lit "false") (c :: s)); [discriminate|].
    destruct (match_int (c :: s)) as [[z r]|].
    + destruct (float_tail r); [json_error|discriminate].
    + destruct (_ || _); json_error.
  - cbn [scan_items] in H. unfold bind in H.
    destruct (scan_once n s) as [[v r0]|e'] eqn:E;
      [|injection H as <-; exact (IH1 _ _ E)].
    destruct (skip_ws r0) as [|c r1]; [json_error|].
    destruct (c =? 93); [discriminate|].
    destruct (c =? 44); [|json_error].
    destruct (scan_items n (skip_ws r1)) as [[vs r]|e'] eqn:E';
      [discriminate|].
    injection H as <-. exact (IH2 _ _ E').
  - cbn [scan_pairs] in H. unfold bind in H.
    destruct (scanstring s) as [[k r0]|e'] eqn:E;
      [|apply scanstring_errors in E; json_error].
    destruct (skip_ws r0) as [|c r1]; [json_error|].
    destruct (c =? 58); [|json_error].
    destruct (scan_once n (skip_ws r1)) as [[v r2]|e'] eqn:E';
      [|injection H as <-; exact (IH1 _ _ E')].
    destruct (skip_ws r2) as [|c2 r3]; [json_error|].
    destruct (c2 =? 125); [discriminate|].
    destruct (c2 =? 44); [|json_error].
    destruct (skip_ws r3) as [|c3 r4]; [json_error|].
    destruct (c3 =? 34); [|json_error].
    destruct (scan_pairs n r4) as [[ps r]|e'] eqn:E''; [discriminate|].
    injection H as <-. exact (IH3 _ _ E'').
Qed.

Lemma loads_str_errors (s : str) (e : exn) :
  loads_str s = Raise e -> In e Further.json_errors.
Proof.
  unfold loads_str. destruct (startswith [65279] s); [intros H; json_error|].
  unfold bind.
  destruct (scan_once (S (2 * List.length s)) (skip_ws s)) as [[v r]|e'] eqn:E.
  - destruct (skip_ws r); [discriminate|intros H; json_error].
  - intros H. injection H as <-.
    destruct (scan_errors (S (2 * List.length s))) as (H1 & _ & _).
    exact (H1 _ _ E).
Qed.


End JsonErrors.

(** ** The trace of the Query Builder *)

Lemma randint_in_range (w : world) (st : state) :
  Further.in_range (2 + Z.of_nat (random w (draws st)) mod (10 - 2 + 1))%Z.
Proof.
  unfold Further.in_range.
  pose proof (Z.mod_pos_bound (Z.of_nat (random w (draws st))) (10 - 2 + 1)
                ltac:(lia)).
  lia.
Qed.

(** One turn of the loop: the request, the part of the body before the
    line is logged, and the part after it. *)
Lemma scrape_categories_step (w : world) (qd : value) (c : str)
  (cs : list str) (found : list value) (st : state) :
  scrape_categories w qd (c :: cs) found st
  = let rid := (2 + Z.of_nat (random w (draws st)) mod (10 - 2 + 1))%Z in
    let req := GetQuery url (full_query qd c rid) in
    let st2 := {| sent := sent st ++ [req]; draws := S (draws st);
                  logged := logged st |} in
    match serve w (sent st) req with
    | None => (Raise TransportError, st2)
    | Some body =>
        match (data <- Json.loads_str body ;;
               total <- total_of data c ;;
               over <- gt_int total 500 ;;
               Ok (data, over))%py with
        | Raise e => (Raise e, st2)
        | Ok (data, over) =>
            let st3 := {| sent := sent st2; draws := draws st2;
                          logged := logged st2
                                    ++ [if over then Warning else Info] |} in
            match (map_results <- map_results_of data c ;;
                   iterate map_results)%py with
            | Raise e => (Raise e, st3)
            | Ok items => scrape_categories w qd cs (found ++ items) st3
            end
        end
    end.
Proof.
  cbv zeta. simpl scrape_categories.
  unfold bindM at 1. unfold randint at 1.
  unfold bindM at 1. unfold session_get at 1. simpl sent.
  destruct (serve w (sent st) _) as [body|]; [|reflexivity].
  rewrite bindM_lift. unfold bind at 1.
  destruct (Json.loads_str body) as [data|e]; [|reflexivity].
  rewrite bindM_lift. unfold bind at 1.
  destruct (total_of data c) as [total|e]; [|reflexivity].
  rewrite bindM_lift. unfold bind at 1.
  destruct (gt_int total 500) as [over|e]; [|reflexivity].
  rewrite bindM_log. rewrite bindM_lift. unfold bind at 1.
  destruct (map_results_of data c) as [map_results|e]; [|reflexivity].
  rewrite bindM_lift.
  destruct (iterate map_results) as [items|e]; reflexivity.
Qed.

(** The loop sends one request per category, in the order of the
    categories, until an error stops it; it returns only when every
    category has been asked for. *)
Lemma scrape_categories_trace (w : world) (qd : value) (categories : list str) :
  forall (found : list value) (st : state),
  exists rids,
    sent (snd (scrape_categories w qd categories found st))
    = sent st ++ map (Further.request_of qd) (combine categories rids) /\
    List.length rids <= List.length categories /\
    Forall Further.in_range rids /\
    (is_ok (fst (scrape_categories w qd categories found st)) = true ->
     List.length rids = List.length categories).
Proof.
  induction categories as [|c cs IH]; intros found st.
  - exists []. simpl. rewrite app_nil_r.
    split; [reflexivity|]. split; [lia|]. split; [constructor|reflexivity].
  - rewrite scrape_categories_step. cbv zeta.
    pose proof (randint_in_range w st) as Hrid.
    set (rid := (2 + Z.of_nat (random w (draws st)) mod (10 - 2 + 1))%Z) in *.
    set (req := GetQuery url (full_query qd c rid)).
    assert (Hone : forall (r : result (list value)) (st' : state),
              is_ok r = false -> sent st' = sent st ++ [req] ->
              exists rids,
                sent (snd (r, st'))
                = sent st ++ map (Further.request_of qd) (combine (c :: cs) rids) /\
                List.length rids <= List.length (c :: cs) /\
                Forall Further.in_range rids /\
                (is_ok (fst (r, st')) = true ->
                 List.length rids = List.length (c :: cs))).
    { intros r st' Hr Hst. exists [rid]. simpl fst. simpl snd. rewrite Hr, Hst.
      split; [cbn [combine]; rewrite combine_nil; reflexivity|].
      split; [simpl; lia|].
      split; [constructor; [exact Hrid|constructor]|discriminate]. }
    destruct (serve w (sent st) req) as [body|];
      [|apply Hone; reflexivity].
    destruct (_ : result (value * bool)) as [[data over]|e];
      [|apply Hone; reflexivity].
    destruct (_ : result (list value)) as [items|e];
      [|apply Hone; reflexivity].
    match goal with
    | |- context [scrape_categories w qd cs ?f ?s] =>
        destruct (IH f s) as (rids & Hsent & Hlen & Hrange & Hok)
    end.
    exists (rid :: rids). rewrite Hsent. simpl sent.
    rewrite <- app_assoc.
    split; [reflexivity|]. split; [simpl; lia|].
    split; [constructor; assumption|].
    intros H. simpl. rewrite (Hok H). reflexivity.
Qed.

(** The trace of a call: the landing page, and, once the landing page has
    given a query state, the requests of the loop for that query state
    after [with_filters]. *)
Lemma zillow_request_trace (w : world) (query : str) (filters : value)
  (categories : list str) (st : state) :
  exists rids,
    List.length rids <= List.length categories /\
    Forall Further.in_range rids /\
    (is_ok (fst (zillow_request w query filters categories st)) = true ->
     List.length rids = List.length categories) /\
    ((rids = [] /\
      sent (snd (zillow_request w query filters categories st))
      = sent st ++ [Get (landing_url query)]) \/
     exists html m ms qd0 qd,
       serve w (sent st) (Get (landing_url query)) = Some html /\
       Re.findall html = m :: ms /\
       Json.loads_str m = Ok qd0 /\
       with_filters qd0 filters = Ok qd /\
       sent (snd (zillow_request w query filters categories st))
       = sent st ++ Get (landing_url query)
                    :: map (Further.request_of qd) (combine categories rids)).
Proof.
  unfold zillow_request.
  match goal with
  | |- context [coroutine ?b st] => set (body := b)
  end.
  rewrite coroutine_state.
  assert (Hok : is_ok (fst (coroutine body st)) = is_ok (fst (body st))).
  { unfold coroutine. destruct (body st) as [[a|e] st']; [reflexivity|].
    destruct e; reflexivity. }
  rewrite Hok. clear Hok.
  assert (Hnone : forall (e : exn),
            body st = (Raise e, after_get st (Get (landing_url query))) ->
            exists rids : list Z,
              List.length rids <= List.length categories /\
              Forall Further.in_range rids /\
              (is_ok (fst (body st)) = true ->
               List.length rids = List.length categories) /\
              rids = [] /\
              sent (snd (body st)) = sent st ++ [Get (landing_url query)]).
  { intros e ->. exists []. simpl fst. simpl snd.
    split; [simpl; lia|]. split; [constructor|]. split; [discriminate|].
    split; reflexivity. }
  assert (Hleft : forall P : list Z -> Prop,
            (exists rids : list Z,
               List.length rids <= List.length categories /\
               Forall Further.in_range rids /\
               (is_ok (fst (body st)) = true ->
                List.length rids = List.length categories) /\
               rids = [] /\
               sent (snd (body st)) = sent st ++ [Get (landing_url query)]) ->
            exists rids : list Z,
              List.length rids <= List.length categories /\
              Forall Further.in_range rids /\
              (is_ok (fst (body st)) = true ->
               List.length rids = List.length categories) /\
              ((rids = [] /\
                sent (snd (body st)) = sent st ++ [Get (landing_url query)])
               \/ P rids)).
  { intros P (rids & H1 & H2 & H3 & H4 & H5). exists rids.
    split; [exact H1|]. split; [exact H2|]. split; [exact H3|].
    left. split; assumption. }
  assert (Hbody : body st =
            match serve w (sent st) (Get (landing_url query)) with
            | None => (Raise TransportError, after_get st (Get (landing_url query)))
            | Some html =>
                match (found <- first (Re.findall html) ;;
                       qd0 <- Json.loads_str found ;;
                       with_filters qd0 filters)%py with
                | Raise e => (Raise e, after_get st (Get (landing_url query)))
                | Ok qd =>
                    scrape_categories w qd categories []
                      (after_get st (Get (landing_url query)))
                end
            end).
  { subst body. cbv beta. unfold bindM at 1. unfold session_get at 1.
    destruct (serve w (sent st) (Get (landing_url query))) as [html|];
      [|reflexivity].
    rewrite bindM_lift. unfold bind at 1.
    destruct (first (Re.findall html)) as [found|e]; [|reflexivity].
    rewrite bindM_lift. unfold Json.loads. unfold bind at 1.
    destruct (Json.loads_str found) as [qd0|e]; [|reflexivity].
    rewrite bindM_lift. destruct (with_filters qd0 filters); reflexivity. }
  destruct (serve w (sent st) (Get (landing_url query))) as [html|] eqn:Hserve;
    [|apply Hleft; exact (Hnone _ Hbody)].
  destruct (Re.findall html) as [|m ms] eqn:Hfind;
    [apply Hleft; exact (Hnone _ Hbody)|].
  simpl first in Hbody. unfold bind at 1 in Hbody.
  destruct (Json.loads_str m) as [qd0|e] eqn:Hload;
    [|apply Hleft; exact (Hnone _ Hbody)].
  unfold bind in Hbody.
  destruct (with_filters qd0 filters) as [qd|e] eqn:Hqd;
    [|apply Hleft; exact (Hnone _ Hbody)].
  clear Hnone Hleft. rewrite Hbody.
  destruct (scrape_categories_trace w qd categories []
              (after_get st (Get (landing_url query))))
    as (rids & Hsent & Hlen & Hrange & Hok).
  exists rids. split; [exact Hlen|]. split; [exact Hrange|].
  split; [exact Hok|].
  right. exists html, m, ms, qd0, qd.
  split; [reflexivity|]. split; [exact Hfind|]. split; [exact Hload|].
  split; [exact Hqd|].
  rewrite Hsent. simpl sent. rewrite <- app_assoc. reflexivity.
Qed.



(** X1: [search_sale] asks for cat1 and then cat2, at most once each, and
    the query state its requests carry is the one read from the landing
    page, unchanged: no filter is applied. *)
Theorem search_sale_keeps_query_state (w : world) (query : str) (st : state) :
  exists rids,
    List.length rids <= 2 /\
    Forall Further.in_range rids /\
    (sent (snd (search_sale w query st)) = sent st ++ [Get (landing_url query)]
     \/
     exists html m ms qd0,
       serve w (sent st) (Get (landing_url query)) = Some html /\
       Re.findall html = m :: ms /\
       Json.loads_str m = Ok qd0 /\
       sent (snd (search_sale w query st))
       = sent st ++ Get (landing_url query)
           :: map (Further.request_of qd0)
                (combine [lit "cat1"; lit "cat2"] rids)).
Proof.
  unfold search_sale. rewrite coroutine_state, bindM_log.
  match goal with
  | |- context [zillow_request w query VNone default_categories ?s] =>
      destruct (zillow_request_trace w query VNone default_categories s)
        as (rids & Hlen & Hrange & _ & Hsent)
  end.
  exists rids. split; [exact Hlen|]. split; [exact Hrange|].
  destruct Hsent as [[_ Hsent]|(html & m & ms & qd0 & qd & H1 & H2 & H3 & H4 & Hsent)].
  - left. exact Hsent.
  - right. exists html, m, ms, qd0. injection H4 as <-.
    split; [exact H1|]. split; [exact H2|]. split; [exact H3|exact Hsent].
Qed.

Lemma dict_get_set_other (d : list (str * value)) (k k' : str) (x : value) :
  k' <> k -> dict_get (dict_set d k x) k' = dict_get d k'.
Proof.
  intros Hne. induction d as [|[k0 v0] d IH].
  - simpl. destruct (str_eqb k k') eqn:E; [|reflexivity].
    apply str_eqb_eq in E. congruence.
  - simpl. destruct (str_eqb k0 k) eqn:E.
    + simpl. destruct (str_eqb k0 k') eqn:E'; [|reflexivity].
      apply str_eqb_eq in E, E'. congruence.
    + simpl. destruct (str_eqb k0 k'); [reflexivity|exact IH].
Qed.

Lemma with_filters_other_keys (qd0 filters qd : value) (k : str) :
  with_filters qd0 filters = Ok qd -> k <> lit "filterState" ->
  getitem qd k = getitem qd0 k.
Proof.
  unfold with_filters. destruct (truthy filters).
  - destruct qd0; try discriminate. simpl. intros H Hk. injection H as <-.
    simpl. rewrite dict_get_set_other by exact Hk. reflexivity.
  - intros H _. injection H as <-. reflexivity.
Qed.

(** X6: whatever filters are supplied, the query state of the search API
    requests differs from the query state of the landing page in its
    filterState entry only: every other key is looked up with the same
    outcome in both. *)
Theorem zillow_request_keeps_other_keys (w : world) (query : str)
  (filters : value) (categories : list str) (st : state) :
  sent (snd (zillow_request w query filters categories st))
  = sent st ++ [Get (landing_url query)]
  \/
  exists html m ms qd0 qd rids,
    serve w (sent st) (Get (landing_url query)) = Some html /\
    Re.findall html = m :: ms /\
    Json.loads_str m = Ok qd0 /\
    sent (snd (zillow_request w query filters categories st))
    = sent st ++ Get (landing_url query)
        :: map (Further.request_of qd) (combine categories rids) /\
    forall k, k <> lit "filterState" -> getitem qd k = getitem qd0 k.
Proof.
  destruct (zillow_request_trace w query filters categories st)
    as (rids & _ & _ & _ & Hsent).
  destruct Hsent as [[_ Hsent]|(html & m & ms & qd0 & qd & H1 & H2 & H3 & H4 & Hsent)].
  - left. exact Hsent.
  - right. exists html, m, ms, qd0, qd, rids.
    split; [exact H1|]. split; [exact H2|]. split; [exact H3|].
    split; [exact Hsent|].
    intros k Hk. exact (with_filters_other_keys _ _ _ _ H4 Hk).
Qed.

(** The run of the example: the rental filters replace the sort order of
    the landing page, the search term stays. *)
Example rent_request_query_state :
  map (fun r =>
         match r with
         | GetQuery _ params =>
             (qs <- getitem params (lit "searchQueryState") ;;
              getitem qs (lit "usersSearchTerm"))%py
         | Get _ => Raise KeyError
         end)
      (filter Spec.is_api_request
         (sent (snd (search_rent Examples.search_world Examples.honolulu start))))
  = [Ok (VStr Examples.honolulu)].
Proof. vm_compute. reflexivity. Qed.

(** ** Logging and failures in the loop *)




(** X4: the total of a category is read before its results.  When the
    answer for the first category is a document in which the total cannot
    be read (no categoryTotals, no entry for the category, or an entry
    that is not a mapping), the call fails with the exception of that
    look-up, after one search API request: nothing is logged, no later
    category is asked for, and the results the answer may hold are
    lost. *)
Theorem zillow_request_unreadable_total (w : world) (query : str)
  (filters : value) (c : str) (later : list str) (st : state)
  (html m : str) (ms : list str) (qd0 : value) (body : str) (data : value)
  (e : exn) :
  serve w (sent st) (Get (landing_url query)) = Some html ->
  Re.findall html = m :: ms ->
  Json.loads_str m = Ok qd0 ->
  (forall qd rid,
     serve w (sent st ++ [Get (landing_url query)]) (Spec.api_request qd c rid)
     = Some body) ->
  Json.loads_str body = Ok data ->
  total_of data c = Raise e ->
  exists qd rid,
    fst (zillow_request w query filters (c :: later) st) = Raise e /\
    sent (snd (zillow_request w query filters (c :: later) st))
    = sent st ++ [Get (landing_url query); Spec.api_request qd c rid] /\
    logged (snd (zillow_request w query filters (c :: later) st)) = logged st.
Proof.
  intros Hserve Hfind Hload Hapi Hbody Htotal.
  destruct (with_filters_ok html m ms qd0 filters Hfind Hload) as [qd Hqd].
  assert (Hrun : exists rid st',
            scrape_categories w qd (c :: later) []
              (after_get st (Get (landing_url query))) = (Raise e, st') /\
            sent st' = sent st ++ [Get (landing_url query); Spec.api_request qd c rid] /\
            logged st' = logged st).
  { rewrite scrape_categories_step. cbv zeta. simpl sent.
    unfold Spec.api_request in Hapi. rewrite Hapi, Hbody. cbn [bind].
    rewrite Htotal. cbn [bind]. do 2 eexists.
    split; [reflexivity|]. simpl sent. simpl logged.
    rewrite <- app_assoc. split; reflexivity. }
  destruct Hrun as (rid & st' & Hrun & Hsent & Hlog).
  assert (Hne : e <> StopIteration)
    by (destruct (total_of_errors _ _ _ Htotal); subst; discriminate).
  exists qd, rid. unfold zillow_request.
  erewrite coroutine_raise; [| |exact Hne].
  - split; [reflexivity|]. split; [exact Hsent|exact Hlog].
  - unfold bindM at 1. unfold session_get at 1. rewrite Hserve.
    rewrite bindM_lift, Hfind. simpl first. cbv iota.
    rewrite bindM_lift. unfold Json.loads. rewrite Hload.
    rewrite bindM_lift, Hqd. exact Hrun.
Qed.

Lemma zillow_request_unreadable_total_witness :
  map_results_of Further.api_data_without_totals (lit "cat1")
  = Ok (VList [Examples.listing 1]) /\
  exists qd rid,
    fst (zillow_request Further.no_totals_world Examples.honolulu VNone
           [lit "cat1"; lit "cat2"] start) = Raise KeyError /\
    sent (snd (zillow_request Further.no_totals_world Examples.honolulu VNone
                 [lit "cat1"; lit "cat2"] start))
    = [] ++ [Get (landing_url Examples.honolulu);
             Spec.api_request qd (lit "cat1") rid] /\
    logged (snd (zillow_request Further.no_totals_world Examples.honolulu VNone
                   [lit "cat1"; lit "cat2"] start)) = [].
Proof.
  split; [reflexivity|].
  apply (zillow_request_unreadable_total Further.no_totals_world
           Examples.honolulu VNone (lit "cat1") [lit "cat2"] start
           Examples.landing_page (Json.dumps Examples.query_state) []
           Examples.query_state
           (Json.dumps Further.api_data_without_totals)
           Further.api_data_without_totals KeyError);
    try (vm_compute; reflexivity).
Defined.

(** ** The exceptions that can leave the operations *)












Lemma scrape_outcome (w : world) (url : str) (st : state) :
  scrape w url st
  = match serve w (sent st) (Get url) with
    | Some html => coroutine (lift (extract w html)) (after_get st (Get url))
    | None => (Raise TransportError, after_get st (Get url))
    end.
Proof.
  destruct (serve w (sent st) (Get url)) as [html|] eqn:E.
  - exact (scrape_extract _ _ _ _ E).
  - unfold scrape, coroutine, bindM, session_get. rewrite E. reflexivity.
Qed.





(** ** The match of the landing page *)

Module ReFacts.

Import Re.
Local Open Scope N_scope.

Lemma startswith_app (p s : str) :
  startswith p s = true -> s = p ++ skipn (List.length p) s.
Proof.
  revert s. induction p as [|a p IH]; intros s H; [reflexivity|].
  destruct s as [|b s]; [discriminate|].
  cbn [startswith] in H. apply andb_prop in H as [Hab Hp].
  apply N.eqb_eq in Hab. subst b.
  cbn [List.length skipn app]. f_equal. exact (IH s Hp).
Qed.

Lemma strip_prefix_app (p s r : str) :
  strip_prefix p s = Some r -> s = p ++ r.
Proof.
  unfold strip_prefix. destruct (startswith p s) eqn:E; [|discriminate].
  intros H. injection H as <-. exact (startswith_app p s E).
Qed.

Lemma skip_space_app (s : str) :
  exists ws, s = ws ++ skip_space s /\ forallb is_space ws = true.
Proof.
  induction s as [|c s (ws & E & Hws)].
  - exists []. split; reflexivity.
  - cbn [skip_space]. destruct (is_space c) eqn:Hc.
    + exists (c :: ws). split; [cbn [app]; f_equal; exact E|].
      cbn [forallb]. rewrite Hc, Hws. reflexivity.
    + exists []. split; reflexivity.
Qed.

Lemma match_tail_app (s rest : str) :
  match_tail s = Some rest ->
  exists ws,
    s = 125 :: 44 :: ws ++ closing ++ rest /\ forallb is_space ws = true.
Proof.
  unfold match_tail. destruct s as [|c1 [|c2 r]]; try discriminate.
  destruct (N.eqb_spec c1 125) as [->|]; [|discriminate].
  destruct (N.eqb_spec c2 44) as [->|]; [|discriminate].
  cbn [andb]. intros H. apply strip_prefix_app in H.
  destruct (skip_space_app r) as (ws & E & Hws).
  exists ws. split; [|exact Hws]. rewrite E at 1. rewrite H. reflexivity.
Qed.

Lemma backtrack_inv (k : nat) (s g rest : str) :
  backtrack k s = Some (g, rest) ->
  exists j, (1 <= j <= k)%nat /\ g = firstn j s /\
            match_tail (skipn j s) = Some rest.
Proof.
  induction k as [|k IH]; [discriminate|].
  cbn [backtrack]. destruct (match_tail (skipn (S k) s)) as [r|] eqn:E.
  - intros H. injection H as <- <-. exists (S k).
    split; [lia|]. split; [reflexivity|exact E].
  - intros H. destruct (IH H) as (j & Hj & Hg & Hm).
    exists j. split; [lia|]. split; assumption.
Qed.

Lemma dot_run_firstn (s : str) :
  forall j, (j <= dot_run s)%nat ->
    List.length (firstn j s) = j /\
    forallb (fun c => negb (c =? 10)) (firstn j s) = true.
Proof.
  induction s as [|c s IH]; intros j Hj.
  - cbn in Hj. assert (j = O) by lia. subst j. split; reflexivity.
  - cbn [dot_run] in Hj. destruct j as [|j]; [split; reflexivity|].
    destruct (c =? 10) eqn:Hc; [lia|].
    destruct (IH j ltac:(lia)) as [Hlen Hall].
    cbn [firstn List.length forallb]. rewrite Hc, Hlen, Hall.
    split; reflexivity.
Qed.

(** A match at the head of a text. *)
Lemma match_here_inv (s g rest : str) :
  match_here s = Some (g, rest) ->
  exists body ws,
    s = marker ++ g ++ 44 :: ws ++ closing ++ rest /\
    g = 123 :: body ++ [125] /\ body <> [] /\
    forallb (fun c => negb (c =? 10)) body = true /\
    forallb is_space ws = true.
Proof.
  unfold match_here.
  destruct (strip_prefix marker s) as [[|c r]|] eqn:Hp; try discriminate.
  destruct (N.eqb_spec c 123) as [->|]; [|discriminate].
  destruct (backtrack (dot_run r) r) as [[g' rest']|] eqn:Hb; [|discriminate].
  intros H. injection H as <- <-.
  apply strip_prefix_app in Hp.
  destruct (backtrack_inv _ _ _ _ Hb) as (j & Hj & -> & Hm).
  destruct (match_tail_app _ _ Hm) as (ws & Hs & Hws).
  destruct (dot_run_firstn r j ltac:(lia)) as [Hlen Hall].
  exists (firstn j r), ws.
  split.
  - rewrite Hp. f_equal. cbn [app]. f_equal.
    rewrite <- app_assoc. cbn [app].
    rewrite <- (firstn_skipn j r) at 1. rewrite Hs. reflexivity.
  - split; [reflexivity|]. split; [|split; assumption].
    intros E. rewrite E in Hlen. cbn in Hlen. lia.
Qed.

Lemma findall_from_inv (s : str) :
  forall k g, In g (findall_from k s) ->
  exists before after,
    s = before ++ after /\ exists rest, match_here after = Some (g, rest).
Proof.
  induction s as [|c s IH]; intros k g Hin; [destruct Hin|].
  assert (Hrec : forall k', In g (findall_from k' s) ->
            exists before after,
              c :: s = before ++ after /\
              exists rest, match_here after = Some (g, rest)).
  { intros k' H. destruct (IH _ _ H) as (b & a & -> & Hm).
    exists (c :: b), a. split; [reflexivity|exact Hm]. }
  destruct k as [|k]; [|exact (Hrec _ Hin)].
  change (findall_from O (c :: s)) with
    (match match_here (c :: s) with
     | Some (g, rest) =>
         g :: findall_from (List.length (c :: s) - List.length rest - 1) s
     | None => findall_from O s
     end) in Hin.
  destruct (match_here (c :: s)) as [[g' rest]|] eqn:E; [|exact (Hrec _ Hin)].
  destruct Hin as [<-|Hin]; [|exact (Hrec _ Hin)].
  exists [], (c :: s). split; [reflexivity|]. exists rest. exact E.
Qed.

End ReFacts.

(** X7: every query state [re.findall] extracts from a landing page is
    literally in the page, right after the key queryState and its colon:
    it starts with an opening brace, ends with a closing brace, has at
    least one character in between and no newline, and is followed by a
    comma, white space and the quoted start of a key in filter. *)
Theorem findall_sound (text g : str) :
  In g (Re.findall text) ->
  exists before body ws after,
    text = before ++ Re.marker ++ g ++ 44%N :: ws ++ Re.closing ++ after /\
    g = 123%N :: body ++ [125%N] /\ body <> [] /\
    forallb (fun c => negb (N.eqb c 10)) body = true /\
    forallb Re.is_space ws = true.
Proof.
  intros Hin. unfold Re.findall in Hin.
  destruct (ReFacts.findall_from_inv _ _ _ Hin) as (before & s & -> & rest & Hm).
  destruct (ReFacts.match_here_inv _ _ _ Hm) as (body & ws & -> & Hg & Hne & Hb & Hws).
  exists before, body, ws, rest. repeat split; assumption.
Qed.

Lemma findall_sound_witness :
  exists before body ws after,
    Examples.landing_page
    = before ++ Re.marker ++ Json.dumps Examples.query_state
        ++ 44%N :: ws ++ Re.closing ++ after /\
    Json.dumps Examples.query_state = 123%N :: body ++ [125%N] /\
    body <> [] /\
    forallb (fun c => negb (N.eqb c 10)) body = true /\
    forallb Re.is_space ws = true.
Proof.
  apply (findall_sound Examples.landing_page (Json.dumps Examples.query_state)).
  vm_compute. left. reflexivity.
Defined.

(** ** The two layouts of a listing page *)

Lemma scrape_raises (w : world) (url : str) (st : state) (html : str)
  (e : exn) :
  serve w (sent st) (Get url) = Some html ->
  extract w html = Raise e -> e <> StopIteration ->
  scrape w url st = (Raise e, after_get st (Get url)).
Proof.
  intros Hserve He Hne. rewrite (scrape_extract _ _ _ _ Hserve).
  apply coroutine_raise; [|exact Hne]. unfold lift. rewrite He. reflexivity.
Qed.

(** X10: there is no fallback from one layout to the other.  When the
    page has a next-data text that is not empty and [json.loads] fails on
    it, [scrape] fails with that error, whatever the Apollo script of the
    page holds. *)
Theorem scrape_next_data_no_fallback (w : world) (url : str) (st : state)
  (html text : str) (e : exn) :
  serve w (sent st) (Get url) = Some html ->
  css_get w html next_data_query = Some text ->
  text <> [] ->
  Json.loads_str text = Raise e ->
  scrape w url st = (Raise e, after_get st (Get url)).
Proof.
  intros Hserve Hnext Hne Hload.
  apply (scrape_raises w url st html e Hserve).
  - unfold extract. rewrite Hnext. simpl opt_str.
    destruct text as [|c text]; [contradiction|].
    simpl truthy. cbv iota. unfold Json.loads. rewrite Hload. reflexivity.
  - apply JsonErrors.loads_str_errors in Hload. simpl in Hload.
    intros ->. intuition discriminate.
Qed.

Lemma scrape_next_data_no_fallback_witness :
  let w := Further.scripts_world (Some (lit "{truncated"))
             (Some (Examples.apollo_page (VDict Examples.cache_two_candidates))) in
  scrape w Examples.listing_url start
  = (Raise JSONDecodeError, after_get start (Get Examples.listing_url)).
Proof.
  apply (scrape_next_data_no_fallback
           (Further.scripts_world (Some (lit "{truncated"))
              (Some (Examples.apollo_page (VDict Examples.cache_two_candidates))))
           Examples.listing_url start (lit "<html></html>") (lit "{truncated")
           JSONDecodeError);
    try (vm_compute; reflexivity).
  discriminate.
Defined.

Lemma extract_apollo_falsy (w : world) (html : str) :
  truthy (opt_str (css_get w html next_data_query)) = false ->
  extract w html
  = (outer <- Json.loads (opt_str (css_get w html apollo_query)) ;;
     cache <- getitem outer (lit "apiCache") ;;
     data <- Json.loads cache ;;
     entries <- items data ;;
     next_for_sale entries)%py.
Proof. intros H. unfold extract. rewrite H. reflexivity. Qed.



(** X12: the apiCache field has to be JSON text.  When the Apollo script
    is a JSON document whose apiCache field is anything but a string (the
    mapping itself, say), [scrape] fails with [TypeError]. *)
Theorem scrape_apollo_cache_not_text (w : world) (url : str) (st : state)
  (html text : str) (outer cache : value) :
  serve w (sent st) (Get url) = Some html ->
  truthy (opt_str (css_get w html next_data_query)) = false ->
  css_get w html apollo_query = Some text ->
  Json.loads_str text = Ok outer ->
  getitem outer (lit "apiCache") = Ok cache ->
  (forall s, cache <> VStr s) ->
  scrape w url st = (Raise TypeError, after_get st (Get url)).
Proof.
  intros Hserve Hnext Hap Hout Hcache Hns.
  apply (scrape_raises w url st html TypeError Hserve); [|discriminate].
  rewrite (extract_apollo_falsy _ _ Hnext), Hap. simpl opt_str.
  unfold Json.loads at 1. rewrite Hout. simpl bind. rewrite Hcache. simpl bind.
  destruct cache; try reflexivity. exfalso. exact (Hns s eq_refl).
Qed.

Lemma scrape_apollo_cache_not_text_witness :
  scrape (Further.scripts_world None
            (Some (Further.apollo_page_decoded (VDict Examples.cache_two_candidates))))
    Examples.listing_url start
  = (Raise TypeError, after_get start (Get Examples.listing_url)).
Proof.
  apply (scrape_apollo_cache_not_text
           (Further.scripts_world None
              (Some (Further.apollo_page_decoded (VDict Examples.cache_two_candidates))))
           Examples.listing_url start (lit "<html></html>")
           (Further.apollo_page_decoded (VDict Examples.cache_two_candidates))
           (VDict [(lit "apiCache", VDict Examples.cache_two_candidates)])
           (VDict Examples.cache_two_candidates));
    try (vm_compute; reflexivity).
  discriminate.
Defined.

(** ** The projection of a building *)

(** X13: [parse_property] looks at the seven source keys of the building
    and at nothing else: two buildings in which each of these keys is
    looked up with the same outcome give the same record, or the same
    exception, whatever their other keys and the order of their
    entries. *)
Theorem parse_property_source_keys_only (d1 d2 : list (str * value)) :
  (forall k, In k Further.source_keys -> dict_get d1 k = dict_get d2 k) ->
  parse_property (VDict d1) = parse_property (VDict d2).
Proof.
  intros H. unfold parse_property, getitem.
  rewrite !(H _) by (simpl; tauto). reflexivity.
Qed.

Lemma parse_property_source_keys_only_witness :
  parse_property (VDict Further.lanai_entries)
  = parse_property (VDict Further.lanai_reordered).
Proof.
  apply (parse_property_source_keys_only Further.lanai_entries
           Further.lanai_reordered).
  intros k Hk. simpl in Hk.
  repeat (destruct Hk as [<-|Hk]; [vm_compute; reflexivity|]).
  destruct Hk.
Defined.

(** X14: [parse_property] returns a record only for a mapping that has
    all seven source keys and whose galleryPhotos can be iterated; the
    record has one photo per item of the gallery. *)
Theorem parse_property_needs_source_keys (building record : value) :
  parse_property building = Ok record ->
  exists d gallery photos urls,
    building = VDict d /\
    Forall (fun k => dict_get d k <> None) Further.source_keys /\
    dict_get d (lit "galleryPhotos") = Some gallery /\
    iterate gallery = Ok photos /\
    getitem record (lit "photos") = Ok (VList urls) /\
    List.length urls = List.length photos.
Proof.
  intros H. destruct building as [| | | | |d];
    try (unfold parse_property in H; simpl in H; discriminate).
  unfold parse_property, bind, getitem in H.
  destruct (dict_get d (lit "address")) eqn:E1; [|discriminate].
  destruct (dict_get d (lit "description")) eqn:E2; [|discriminate].
  destruct (dict_get d (lit "galleryPhotos")) as [gallery|] eqn:E3;
    [|discriminate].
  destruct (iterate gallery) as [photos|] eqn:E4; [|discriminate].
  destruct (photo_urls photos) as [urls|] eqn:E5; [|discriminate].
  destruct (dict_get d (lit "zipcode")) eqn:E6; [|discriminate].
  destruct (dict_get d (lit "buildingPhoneNumber")) eqn:E7; [|discriminate].
  destruct (dict_get d (lit "buildingName")) eqn:E8; [|discriminate].
  destruct (dict_get d (lit "floorPlans")) eqn:E9; [|discriminate].
  injection H as <-.
  exists d, gallery, photos, urls. split; [reflexivity|].
  split; [repeat constructor; congruence|].
  split; [exact E3|]. split; [exact E4|]. split; [reflexivity|].
  clear -E5. revert urls E5.
  induction photos as [|photo rest IH]; intros urls E5.
  - injection E5 as <-. reflexivity.
  - change (photo_urls (photo :: rest))
      with (u <- getitem photo (lit "url") ;;
            us <- photo_urls rest ;; Ok (u :: us))%py in E5.
    unfold bind in E5.
    destruct (getitem photo (lit "url")); [|discriminate].
    destruct (photo_urls rest) as [us|]; [|discriminate].
    injection E5 as <-. simpl. f_equal. apply IH. reflexivity.
Qed.

Lemma parse_property_needs_source_keys_witness :
  exists d gallery photos urls,
    Examples.lanai = VDict d /\
    Forall (fun k => dict_get d k <> None) Further.source_keys /\
    dict_get d (lit "galleryPhotos") = Some gallery /\
    iterate gallery = Ok photos /\
    getitem (Further.record_of Examples.lanai) (lit "photos") = Ok (VList urls) /\
    List.length urls = List.length photos.
Proof.
  apply (parse_property_needs_source_keys Examples.lanai
           (Further.record_of Examples.lanai)).
  vm_compute. reflexivity.
Defined.

(** ** Several pages, and the entry points *)




Lemma scrape_state (w : world) (url : str) (st : state) :
  snd (scrape w url st) = after_get st (Get url).
Proof.
  rewrite scrape_outcome.
  destruct (serve w (sent st) (Get url)); [|reflexivity].
  rewrite coroutine_state. reflexivity.
Qed.

(** X16: whatever the server answers, [find_properties] sends exactly one
    request, for the path appended to the origin of the site, and leaves
    nothing else behind. *)
Theorem find_properties_one_request (w : world) (url : str) (st : state) :
  snd (find_properties w url st)
  = after_get st (Get (lit "https://www.zillow.com" ++ url)).
Proof.
  unfold find_properties. rewrite coroutine_state. unfold bindM.
  assert (H : snd (scrape_properties w [site ++ url] st)
              = after_get st (Get (site ++ url))).
  { unfold scrape_properties. rewrite coroutine_state.
    cbn [map gather]. unfold bindM, ret.
    pose proof (scrape_state w (site ++ url) st) as Hs.
    destruct (scrape w (site ++ url) st) as [[r|e] st']; exact Hs. }
  unfold str in *.
  destruct (scrape_properties w [site ++ url] st) as [[data|e] st'];
    simpl in H; subst st'; reflexivity.
Qed.

(** X17: [find_listings] handles no error: when the rent search for
    Honolulu, HI fails, it fails with the same exception and does nothing
    more. *)
Theorem find_listings_propagates_failure (w : world) (st st' : state)
  (e : exn) :
  search_rent w (lit "Honolulu, HI") st = (Raise e, st') ->
  find_listings w st = (Raise e, st').
Proof.
  intros H. unfold find_listings.
  apply coroutine_raise.
  - unfold bindM. rewrite H. reflexivity.
  - intros ->. unfold search_rent in H.
    match type of H with
    | coroutine ?b st = _ =>
        apply (coroutine_never_stop b st); rewrite H; reflexivity
    end.
Qed.

Lemma find_listings_propagates_failure_witness :
  find_listings Examples.blocked_world start
  = (Raise IndexError,
     snd (search_rent Examples.blocked_world (lit "Honolulu, HI") start)).
Proof.
  apply (find_listings_propagates_failure Examples.blocked_world start
           (snd (search_rent Examples.blocked_world (lit "Honolulu, HI") start))
           IndexError).
  vm_compute. reflexivity.
Defined.

(** A document that starts with an opening bracket is an array. *)
Lemma loads_str_bracket (t : str) (v : value) :
  Json.loads_str (91%N :: t) = Ok v -> exists l, v = VList l.
Proof.
  unfold Json.loads_str.
  change (startswith [65279%N] (91%N :: t)) with false.
  change (Json.skip_ws (91%N :: t)) with (91%N :: t).
  cbv beta iota.
  set (n := (2 * List.length (91%N :: t))%nat).
  change (Json.scan_once (S n) (91%N :: t)) with
    (match Json.skip_ws t with
     | c1 :: r1 =>
         if N.eqb c1 93 then Ok (VList [], r1)
         else
           ('(vs, rest) <- Json.scan_items n (c1 :: r1) ;;
            Ok (VList vs, rest))%py
     | [] => Raise JSONDecodeError
     end).
  destruct (Json.skip_ws t) as [|c1 r1]; [discriminate|].
  destruct (N.eqb c1 93).
  - simpl. destruct (Json.skip_ws r1); [|discriminate].
    intros H. injection H as <-. eexists. reflexivity.
  - destruct (Json.scan_items n (c1 :: r1)) as [[vs rest]|e]; [|discriminate].
    simpl. destruct (Json.skip_ws rest); [|discriminate].
    intros H. injection H as <-. eexists. reflexivity.
Qed.

(** X18: [find_listings] sends no request and logs no line of its own:
    what it leaves behind is what the rent search left.  Whenever it
    returns, the rent search has returned and the value is a list. *)
Theorem find_listings_returns_list (w : world) (st : state) :
  snd (find_listings w st) = snd (search_rent w (lit "Honolulu, HI") st) /\
  forall v, fst (find_listings w st) = Ok v ->
    exists data l,
      fst (search_rent w (lit "Honolulu, HI") st) = Ok data /\ v = VList l.
Proof.
  unfold find_listings. split.
  - rewrite coroutine_state. unfold bindM.
    destruct (search_rent w (lit "Honolulu, HI") st) as [[data|e] st'];
      reflexivity.
  - intros v H. unfold coroutine, bindM in H.
    destruct (search_rent w (lit "Honolulu, HI") st) as [[data|e] st'].
    + unfold lift in H. cbn [Json.loads Json.dumps] in H.
      destruct (Json.loads_str _) as [v'|e] eqn:E;
        [|destruct e; discriminate].
      injection H as <-. apply loads_str_bracket in E.
      destruct E as [l ->]. exists data, l. split; reflexivity.
    + destruct e; discriminate.
Qed.

Lemma find_listings_returns_list_witness :
  exists data l,
    fst (search_rent Examples.search_world (lit "Honolulu, HI") start) = Ok data /\
    VList [Examples.listing 1; Examples.listing 2] = VList l.
Proof.
  destruct (find_listings_returns_list Examples.search_world start) as [_ H].
  apply H. vm_compute. reflexivity.
Defined.
